(** * The playground store (store.ts): a shallow embedding

    The store of the in-browser playground keeps a virtual file set in a
    JavaScript object, tracks the active file and the main file, and
    serializes the workspace to a URL fragment.  This development embeds the
    store's operations as Rocq functions and proves the properties its
    specification states about them.

    How the program is modelled:
    - a JavaScript string is a [string], a JSON value a [json];
    - an object used as a map is the list of its own properties in own-key
      order (module [JsObj]), together with its prototype where the store
      reads or writes it under a name of the caller's choice: the mapping
      of the store is created without a prototype, [renameFile] replaces it
      by an object literal, and on an object that inherits from
      [Object.prototype] the assignment to the name [__proto__] replaces
      the prototype and creates no key;
    - every entry of the file mapping holds a [File] object of its own; a
      [ref] is a cell, and reading or writing an object through the
      reactive proxy of the framework is reading or writing the object;
    - an operation is a function from the store state to the new state,
      together with the effects it leaves to the outside (a compile it
      started, an alert) and the way it completed; the run a watcher makes
      when it is installed is part of the operation that installs it, the
      later runs of the watchers and the completion of the compiles are
      not;
    - the collaborators that are not part of the store ([JSON.parse],
      [JSON.stringify], the text encoding of [utils], [mergeImportMap],
      [compileFile], the dynamic import, the confirmation prompt) are
      parameters;
    - values have the types the TypeScript source declares for them; where
      a value would escape its declared type (parsed JSON that is not a
      file table, an inherited property read as a file, a main file that
      is [undefined]), the run is marked as outside the model ([Untyped]);
      the store given for it is the store where the model stopped. *)

From Stdlib Require Import String Ascii List Bool Arith NArith ZArith Lia.
From Stdlib Require Import DecimalString.
From Stdlib Require Import Floats.SpecFloat.
Import ListNotations.

Open Scope list_scope.
Open Scope string_scope.

Set Implicit Arguments.

(* ================================================================== *)
(** * Strings *)
(* ================================================================== *)

Module Str.

(** The double quote character, and a string wrapped in double quotes. *)
Definition dq : string := String (ascii_of_nat 34) EmptyString.
Definition quoted (s : string) : string := dq ++ s ++ dq.

(** [s.startsWith(p)] *)
Definition startsWith (s p : string) : bool := prefix p s.

(** [s.slice(n)] for [0 <= n] *)
Fixpoint drop (n : nat) (s : string) : string :=
  match n, s with
  | O, _ => s
  | S _, EmptyString => EmptyString
  | S n', String _ s' => drop n' s'
  end.

(** [s.endsWith(p)] *)
Definition endsWith (s p : string) : bool :=
  (String.length p <=? String.length s)%nat &&
  (drop (String.length s - String.length p) s =? p).

(** [s.replace(pat, rep)] with a string pattern: the first occurrence of
    [pat] in [s] is replaced by [rep] ([rep] holding no [$] pattern). *)
Fixpoint replace_first (pat rep s : string) : string :=
  if prefix pat s then rep ++ drop (String.length pat) s
  else match s with
       | EmptyString => s
       | String c s' => String c (replace_first pat rep s')
       end.

(** [pat] occurs somewhere in [s]. *)
Fixpoint occurs (pat s : string) : bool :=
  prefix pat s ||
  match s with
  | EmptyString => false
  | String _ s' => occurs pat s'
  end.

End Str.

(* ================================================================== *)
(** * JavaScript objects used as ordered maps *)
(* ================================================================== *)

(** The file mapping is a plain object keyed by file name, and its iteration
    order is the tab order.  [Object.entries], [Object.keys], [for..in] and
    [JSON.stringify] all walk the own string keys in the order of
    OrdinaryOwnPropertyKeys: first the keys that are array indices, in
    ascending numeric order, then every other key in creation order.  An
    object is modelled by the list of its own properties in that order; what
    it inherits is kept apart, as its [prototype] (below, with the file
    mapping). *)

Module JsObj.

Definition digit_val (c : ascii) : option N :=
  let n := N_of_ascii c in
  if ((48 <=? n) && (n <=? 57))%N then Some (n - 48)%N else None.

Fixpoint parse_digits (s : string) (acc : N) : option N :=
  match s with
  | EmptyString => Some acc
  | String c s' =>
      match digit_val c with
      | Some d => parse_digits s' (10 * acc + d)%N
      | None => None
      end
  end.

(** A key is an array index when it is the canonical decimal numeral of an
    integer in [0, 2^32 - 2]. *)
Definition array_index (k : string) : option N :=
  match k with
  | EmptyString => None
  | String c rest =>
      if (c =? "0")%char && negb (rest =? "") then None
      else match parse_digits k 0 with
           | Some n => if (n <=? 4294967294)%N then Some n else None
           | None => None
           end
  end.

(** [precedes k k']: a newly created key [k] is listed before the existing
    key [k']. *)
Definition precedes (k k' : string) : bool :=
  match array_index k, array_index k' with
  | Some i, Some j => (i <? j)%N
  | Some _, None => true
  | None, _ => false
  end.

Section Ops.
Context {V : Type}.

Definition obj := list (string * V).

(** [o[k]] on own properties; [None] is [undefined]. *)
Fixpoint get (k : string) (o : obj) : option V :=
  match o with
  | [] => None
  | (k', v) :: o' => if k =? k' then Some v else get k o'
  end.

Definition has (k : string) (o : obj) : bool :=
  match get k o with Some _ => true | None => false end.

Fixpoint replace_val (k : string) (v : V) (o : obj) : obj :=
  match o with
  | [] => []
  | (k', v') :: o' =>
      if k =? k' then (k', v) :: o' else (k', v') :: replace_val k v o'
  end.

Fixpoint insert_new (k : string) (v : V) (o : obj) : obj :=
  match o with
  | [] => [(k, v)]
  | (k', v') :: o' =>
      if precedes k k' then (k, v) :: o else (k', v') :: insert_new k v o'
  end.

(** [o[k] = v]: an existing key keeps its place, a new key is created at
    the place its kind gives it. *)
Definition set (k : string) (v : V) (o : obj) : obj :=
  if has k o then replace_val k v o else insert_new k v o.

(** [delete o[k]] *)
Fixpoint delete (k : string) (o : obj) : obj :=
  match o with
  | [] => []
  | (k', v') :: o' =>
      if k =? k' then delete k o' else (k', v') :: delete k o'
  end.

(** [Object.keys(o)] and [Object.entries(o)] *)
Definition keys (o : obj) : list string := map fst o.
Definition entries (o : obj) : list (string * V) := o.
Definition values (o : obj) : list V := map snd o.

End Ops.

Arguments obj : clear implicits.

Fixpoint mem (k : string) (l : list string) : bool :=
  match l with
  | [] => false
  | k' :: l' => (k =? k') || mem k l'
  end.

(** The key list of a real object: no key twice, array indices first and
    ascending, the other keys after them. *)
Fixpoint key_order (l : list string) : bool :=
  match l with
  | [] => true
  | k :: l' =>
      negb (mem k l') && forallb (fun k' => negb (precedes k' k)) l'
      && key_order l'
  end.

Definition wf {V} (o : obj V) : bool := key_order (keys o).

End JsObj.

Import JsObj.

(* ================================================================== *)
(** * File names *)
(* ================================================================== *)

Definition importMapFile := "import-map.json".
Definition tsconfigFile := "tsconfig.json".
Definition viteConfigFile := "vite.config.ts".
Definition tsMacroConfigFile := "tsm.config.ts".
Definition indexHtmlFile := "src/index.html".
Definition welcomeFile := "src/App.tsx".

(** The four reserved names, in the order [setActive] lists them. *)
Definition reserved (f : string) : bool :=
  (f =? viteConfigFile) || (f =? tsMacroConfigFile) ||
  (f =? tsconfigFile) || (f =? importMapFile).

Definition addSrcPrefix (file : string) : string :=
  if (file =? importMapFile) || (file =? tsconfigFile) ||
     (file =? viteConfigFile) || (file =? tsMacroConfigFile) ||
     Str.startsWith file "src/"
  then file
  else "src/" ++ file.

(** [file.replace(/^src\//, '')] *)
Definition stripSrcPrefix (file : string) : string :=
  if Str.startsWith file "src/" then Str.drop 4 file else file.

(** [url.replace('https://sfc.vuejs', 'https://play.vuejs')] *)
Definition fixURL (url : string) : string :=
  Str.replace_first "https://sfc.vuejs" "https://play.vuejs" url.

(* ================================================================== *)
(** * JSON values and the JavaScript operations the store applies to them *)
(* ================================================================== *)

(** What [JSON.parse] returns.  Numbers are IEEE 754 doubles; an object lists
    its properties in own-key order. *)
#[local] Unset Elimination Schemes.
Inductive json : Type :=
| JNull
| JBool (b : bool)
| JNum (x : spec_float)
| JStr (s : string)
| JArr (l : list json)
| JObj (o : list (string * json)).
#[local] Set Elimination Schemes.

Inductive exn : Type :=
| SyntaxError (message : string)
| TypeError
| OtherError (message : string).

(** The result of a call that may throw.  [IllTyped] marks a run in which a
    value escapes the TypeScript type the store declares for it (a file
    whose code is not a string, for instance); such runs are outside the
    model. *)
Inductive result (A : Type) : Type :=
| Ok (a : A)
| Throw (e : exn)
| IllTyped.

Arguments Ok {A} a.
Arguments Throw {A} e.
Arguments IllTyped {A}.

Module Js.

(** ToBoolean *)
Definition truthy (v : json) : bool :=
  match v with
  | JNull => false
  | JBool b => b
  | JNum (S754_zero _) => false
  | JNum S754_nan => false
  | JNum _ => true
  | JStr s => negb (s =? "")
  | JArr _ => true
  | JObj _ => true
  end.

Definition truthy_opt (v : option json) : bool :=
  match v with Some v => truthy v | None => false end.

(** [a === b] for two values that come from different [JSON.parse] calls:
    primitives are compared by value, two objects or arrays are never the
    same reference. *)
Definition strict_eq (a b : json) : bool :=
  match a, b with
  | JNull, JNull => true
  | JBool x, JBool y => Bool.eqb x y
  | JNum x, JNum y => SFeqb x y
  | JStr x, JStr y => x =? y
  | _, _ => false
  end.

Definition index_key (i : nat) : string :=
  NilEmpty.string_of_uint (Nat.to_uint i).

Definition indexed {A} (l : list A) : list (string * A) :=
  combine (map index_key (seq 0 (List.length l))) l.

Definition chars (s : string) : list json :=
  map (fun c => JStr (String c EmptyString)) (list_ascii_of_string s).

(** The own enumerable string-keyed properties, as [Object.entries] and
    [for..in] list them. *)
Definition own_entries (v : json) : list (string * json) :=
  match v with
  | JObj o => o
  | JArr l => indexed l
  | JStr s => indexed (chars s)
  | _ => []
  end.

(** [Object.keys(v).length] *)
Definition keys_length (v : json) : nat := List.length (own_entries v).

(** [v.name] for a property name that is neither an index nor [length]
    (the store reads [imports], [scopes], [code] and [hidden]): reading a
    property of [null] throws, a primitive or an array has no such
    property. *)
Definition field (v : json) (name : string) : result (option json) :=
  match v with
  | JNull => Throw TypeError
  | JObj o => Ok (get name o)
  | _ => Ok None
  end.

End Js.

(* ================================================================== *)
(** * Files and the store state *)
(* ================================================================== *)

Record Compiled : Type := { js : string; css : string; ssr : string }.

(** [class File].  The editor view state is an opaque blob the store never
    inspects. *)
Record File : Type := {
  filename : string;
  code : string;
  hidden : bool;
  compiled : Compiled;
  editorViewState : option json;
}.

(** [new File(filename, code = '', hidden = false)] *)
Definition newFile (filename code : string) (hidden : bool) : File :=
  {| filename := filename; code := code; hidden := hidden;
     compiled := {| js := ""; css := ""; ssr := "" |};
     editorViewState := None |}.

Definition with_filename (f : File) (n : string) : File :=
  {| filename := n; code := code f; hidden := hidden f;
     compiled := compiled f; editorViewState := editorViewState f |}.

Definition with_code (f : File) (c : string) : File :=
  {| filename := filename f; code := c; hidden := hidden f;
     compiled := compiled f; editorViewState := editorViewState f |}.

Definition with_compiled (f : File) (c : Compiled) : File :=
  {| filename := filename f; code := code f; hidden := hidden f;
     compiled := c; editorViewState := editorViewState f |}.

(** ** What the file mapping inherits

    [useStore] creates the mapping by [Object.create(null)]: it has no
    prototype, and so has the mapping [setFiles] builds.  [renameFile]
    replaces the mapping by an object literal, which inherits from
    [Object.prototype].  On an object that inherits the accessor
    [__proto__] of [Object.prototype], the assignment [o['__proto__'] = file]
    calls the inherited setter: [file] becomes the prototype of [o] and [o]
    gets no key; [o] then inherits the fields of [file], what [File.prototype]
    defines and, after them, [Object.prototype] again. *)
Inductive prototype : Type :=
| NoPrototype
| ObjectPrototype
| FilePrototype (f : File).

(** The property names of [Object.prototype]; every one of them holds a
    function, but [__proto__], whose getter returns the prototype of the
    object it is read from. *)
Definition object_prototype_names : list string :=
  ["constructor"; "__defineGetter__"; "__defineSetter__"; "hasOwnProperty";
   "__lookupGetter__"; "__lookupSetter__"; "isPrototypeOf";
   "propertyIsEnumerable"; "toString"; "valueOf"; "__proto__";
   "toLocaleString"].

(** The fields of a [File] object and the getter of [File.prototype];
    [File.prototype.constructor] hides the [constructor] of
    [Object.prototype]. *)
Definition file_property_names : list string :=
  ["filename"; "code"; "hidden"; "compiled"; "editorViewState"; "language"].

(** [k] names a property that an object with prototype [p] inherits. *)
Definition inherited (p : prototype) (k : string) : bool :=
  match p with
  | NoPrototype => false
  | ObjectPrototype => mem k object_prototype_names
  | FilePrototype _ =>
      mem k file_property_names || mem k object_prototype_names
  end.

(** What [files.value[k]] gives the store, as far as the store tells the
    values apart: a file of the mapping; the file that is the prototype of
    the mapping (read under [__proto__]); [undefined] or an inherited value
    that is falsy; an inherited value that is truthy and not a file (a
    function, a non-empty string, [true], an object); or a [TypeError], when
    the inherited getter [language] reads [this.filename] and finds a file
    of the mapping, which has no method [endsWith]. *)
Inductive found : Type :=
| Own (f : File)
| Proto (f : File)
| Undefined
| Other
| Raises.

Definition lookup (p : prototype) (o : obj File) (k : string) : found :=
  match get k o with
  | Some f => Own f
  | None =>
      if negb (inherited p k) then Undefined
      else
        match p with
        | FilePrototype f =>
            if k =? "__proto__" then Proto f
            else if k =? "filename" then
              if filename f =? "" then Undefined else Other
            else if k =? "code" then
              if code f =? "" then Undefined else Other
            else if k =? "hidden" then
              if hidden f then Other else Undefined
            else if k =? "editorViewState" then
              match editorViewState f with
              | Some v => if Js.truthy v then Other else Undefined
              | None => Undefined
              end
            else if k =? "language" then
              if has "filename" o then Raises else Other
            else Other
        | _ => Other
        end
  end.

(** [o[k] = f] in strict code, for an object [o] with prototype [p]: the own
    properties and the prototype of [o] afterwards.  An own key is
    overwritten in place; a name that is not an own key is created, unless
    it is [__proto__] and [o] inherits the setter, or [language] and [o]
    inherits the getter of [File.prototype], which has no setter: the
    assignment then throws. *)
Definition assign (p : prototype) (o : obj File) (k : string) (f : File)
  : result (obj File * prototype) :=
  if has k o then Ok (set k f o, p)
  else
    match p with
    | NoPrototype => Ok (set k f o, p)
    | ObjectPrototype =>
        if k =? "__proto__" then Ok (o, FilePrototype f)
        else Ok (set k f o, p)
    | FilePrototype _ =>
        if k =? "__proto__" then Ok (o, FilePrototype f)
        else if k =? "language" then Throw TypeError
        else Ok (set k f o, p)
    end.

(** [o[k] = f] sets the own key [k] of [o]. *)
Definition keyed (p : prototype) (o : obj File) (k : string) : bool :=
  has k o ||
  match p with
  | NoPrototype => true
  | ObjectPrototype => negb (k =? "__proto__")
  | FilePrototype _ => negb (k =? "__proto__") && negb (k =? "language")
  end.

Record Template : Type := {
  indexHtml : string;
  welcome : string;
  new : string;
  viteConfig : string;
}.

(** The fields of the store the operations below read or write.  [template]
    is the computed [presets[preset]].  Every entry of [files] holds its own
    [File] object. *)
Record StoreState : Type := {
  files : obj File;
  filesProto : prototype;
  activeFilename : string;
  activeConfigFilename : string;
  mainFile : string;
  builtinImportMap : json;
  errors : list string;
  vueVersion : option string;
  importMap : json;
  tsMacroConfigCode : string;
  template : Template;
}.

Definition with_files (st : StoreState) (v : obj File) : StoreState :=
  {| files := v; filesProto := filesProto st;
     activeFilename := activeFilename st;
     activeConfigFilename := activeConfigFilename st; mainFile := mainFile st;
     builtinImportMap := builtinImportMap st; errors := errors st;
     vueVersion := vueVersion st; importMap := importMap st;
     tsMacroConfigCode := tsMacroConfigCode st; template := template st |}.

Definition with_filesProto (st : StoreState) (v : prototype) : StoreState :=
  {| files := files st; filesProto := v;
     activeFilename := activeFilename st;
     activeConfigFilename := activeConfigFilename st; mainFile := mainFile st;
     builtinImportMap := builtinImportMap st; errors := errors st;
     vueVersion := vueVersion st; importMap := importMap st;
     tsMacroConfigCode := tsMacroConfigCode st; template := template st |}.

Definition with_activeFilename (st : StoreState) (v : string) : StoreState :=
  {| files := files st; filesProto := filesProto st; activeFilename := v;
     activeConfigFilename := activeConfigFilename st; mainFile := mainFile st;
     builtinImportMap := builtinImportMap st; errors := errors st;
     vueVersion := vueVersion st; importMap := importMap st;
     tsMacroConfigCode := tsMacroConfigCode st; template := template st |}.

Definition with_activeConfigFilename (st : StoreState) (v : string)
  : StoreState :=
  {| files := files st; filesProto := filesProto st;
     activeFilename := activeFilename st;
     activeConfigFilename := v; mainFile := mainFile st;
     builtinImportMap := builtinImportMap st; errors := errors st;
     vueVersion := vueVersion st; importMap := importMap st;
     tsMacroConfigCode := tsMacroConfigCode st; template := template st |}.

Definition with_mainFile (st : StoreState) (v : string) : StoreState :=
  {| files := files st; filesProto := filesProto st;
     activeFilename := activeFilename st;
     activeConfigFilename := activeConfigFilename st; mainFile := v;
     builtinImportMap := builtinImportMap st; errors := errors st;
     vueVersion := vueVersion st; importMap := importMap st;
     tsMacroConfigCode := tsMacroConfigCode st; template := template st |}.

Definition with_errors (st : StoreState) (v : list string) : StoreState :=
  {| files := files st; filesProto := filesProto st;
     activeFilename := activeFilename st;
     activeConfigFilename := activeConfigFilename st; mainFile := mainFile st;
     builtinImportMap := builtinImportMap st; errors := v;
     vueVersion := vueVersion st; importMap := importMap st;
     tsMacroConfigCode := tsMacroConfigCode st; template := template st |}.

Definition with_vueVersion (st : StoreState) (v : option string)
  : StoreState :=
  {| files := files st; filesProto := filesProto st;
     activeFilename := activeFilename st;
     activeConfigFilename := activeConfigFilename st; mainFile := mainFile st;
     builtinImportMap := builtinImportMap st; errors := errors st;
     vueVersion := v; importMap := importMap st;
     tsMacroConfigCode := tsMacroConfigCode st; template := template st |}.

Definition with_importMap (st : StoreState) (v : json) : StoreState :=
  {| files := files st; filesProto := filesProto st;
     activeFilename := activeFilename st;
     activeConfigFilename := activeConfigFilename st; mainFile := mainFile st;
     builtinImportMap := builtinImportMap st; errors := errors st;
     vueVersion := vueVersion st; importMap := v;
     tsMacroConfigCode := tsMacroConfigCode st; template := template st |}.

(** What an operation leaves behind besides the new state: a compile it
    started (whose diagnostics will later replace the error list or be
    pushed onto it), on a file or ([CompileOther]) on a value that is not a
    file, an alert, a console message. *)
Inductive errors_update : Type := ReplaceErrors | PushErrors.

Inductive effect : Type :=
| Compile (file : File) (k : errors_update)
| CompileOther (k : errors_update)
| Alert (msg : string)
| ConsoleError (e : exn).

(** How a call that changes the store ends. *)
Inductive completion : Type :=
| Normal
| Throws (e : exn)
| Untyped.

(* ================================================================== *)
(** * File operations *)
(* ================================================================== *)

(** [setFile(files, filename, content, hidden = false)] *)
Definition setFile (files : obj File) (filename content : string)
  (hidden : bool) : obj File :=
  let normalized := addSrcPrefix filename in
  set normalized (newFile normalized content hidden) files.

Definition setActive (st : StoreState) (filename : string) : StoreState :=
  if reserved filename then with_activeConfigFilename st filename
  else with_activeFilename st filename.

(** [addFile(fileOrFilename)]: the argument is a bare name ([inl]) or a
    ready-made file object ([inr]). *)
Definition addFile (st : StoreState) (fileOrFilename : string + File)
  : StoreState * completion :=
  let file :=
    match fileOrFilename with
    | inl name =>
        newFile name
          (if Str.endsWith name ".tsx" then new (template st) else "") false
    | inr f => f
    end in
  match assign (filesProto st) (files st) (filename file) file with
  | Ok (fs, p) =>
      let st1 := with_filesProto (with_files st fs) p in
      (if hidden file then st1 else setActive st1 (filename file), Normal)
  | Throw e => (st, Throws e)
  | IllTyped => (st, Untyped)
  end.

Definition delete_prompt (filename : string) : string :=
  "Are you sure you want to delete " ++ stripSrcPrefix filename ++ "?".

(** [deleteFile(filename)]; [confirm] is the prompt the browser shows. *)
Definition deleteFile (confirm : string -> bool) (st : StoreState)
  (filename : string) : StoreState :=
  if negb (confirm (delete_prompt filename)) then st
  else
    let st1 :=
      if activeFilename st =? filename
      then with_activeFilename st (mainFile st) else st in
    with_files st1 (delete filename (files st1)).

Definition not_found_message (oldFilename : string) : string :=
  "Could not rename " ++ Str.quoted oldFilename ++ ", file not found".

Definition cannot_rename_message (oldFilename newFilename : string) : string :=
  "Cannot rename " ++ Str.quoted oldFilename ++ " to " ++
  Str.quoted newFilename.

(** The loop of [renameFile] that rebuilds the mapping, from the object
    [newFiles] as it is so far. *)
Fixpoint rename_loop (oldFilename newFilename : string)
  (entries : list (string * File)) (newFiles : obj File * prototype)
  : result (obj File * prototype) :=
  match entries with
  | [] => Ok newFiles
  | (name, file) :: rest =>
      match
        assign (snd newFiles) (fst newFiles)
          (if name =? oldFilename then newFilename else name) file
      with
      | Ok newFiles' => rename_loop oldFilename newFilename rest newFiles'
      | Throw e => Throw e
      | IllTyped => IllTyped
      end
  end.

(** The mapping the loop builds when every assignment of it sets an own
    key. *)
Definition renamed_files (oldFilename newFilename : string)
  (entries : list (string * File)) : obj File :=
  fold_left
    (fun newFiles '(name, file) =>
       if name =? oldFilename then set newFilename file newFiles
       else set name file newFiles)
    entries [].

(** [renameFile(oldFilename, newFilename)], from [const newFiles = {}] on,
    for the store [st0] in which [file] has got its new name. *)
Definition rename_rest (st0 : StoreState) (file : File)
  (oldFilename newFilename : string) : StoreState * list effect * completion :=
  match
    rename_loop oldFilename newFilename (entries (files st0))
      ([], ObjectPrototype)
  with
  | Ok (newFiles, p) =>
      let st1 := with_filesProto (with_files st0 newFiles) p in
      let st2 :=
        if mainFile st1 =? oldFilename
        then with_mainFile st1 newFilename else st1 in
      if activeFilename st2 =? oldFilename
      then (with_activeFilename st2 newFilename, [], Normal)
      else (st2, [Compile file ReplaceErrors], Normal)
  | Throw e => (st0, [], Throws e)
  | IllTyped => (st0, [], Untyped)
  end.

(** [renameFile(oldFilename, newFilename)].  [file.filename = newFilename]
    changes the object the mapping holds under the old key, so the loop
    sees the renamed file.  When [files.value[oldFilename]] is an inherited
    value that is not a file, [file.filename = newFilename] writes to an
    object that is not part of the store (or throws, on a string): the run
    leaves the model. *)
Definition renameFile (st : StoreState) (oldFilename newFilename : string)
  : StoreState * list effect * completion :=
  let rejected := (newFilename =? "") || (oldFilename =? newFilename) in
  let cannot_rename :=
    (with_errors st [cannot_rename_message oldFilename newFilename], [],
     Normal) in
  match lookup (filesProto st) (files st) oldFilename with
  | Undefined => (with_errors st [not_found_message oldFilename], [], Normal)
  | Raises => (st, [], Throws TypeError)
  | Own file0 =>
      if rejected then cannot_rename
      else
        let file := with_filename file0 newFilename in
        rename_rest
          (with_files st (replace_val oldFilename file (files st)))
          file oldFilename newFilename
  | Proto file0 =>
      if rejected then cannot_rename
      else
        let file := with_filename file0 newFilename in
        rename_rest (with_filesProto st (FilePrototype file)) file
          oldFilename newFilename
  | Other => if rejected then cannot_rename else (st, [], Untyped)
  end.

(** [setDefaultFile()] *)
Definition setDefaultFile (st : StoreState) : StoreState :=
  let fs := setFile (files st) indexHtmlFile (indexHtml (template st)) true in
  let fs := setFile fs welcomeFile (welcome (template st)) false in
  let fs := setFile fs viteConfigFile (viteConfig (template st)) false in
  let fs := setFile fs tsMacroConfigFile (tsMacroConfigCode st) false in
  with_files st fs.

(** One entry of what [getFiles] exports: [{ code, hidden? }]. *)
Module Exported.
Record t : Type := { code : string; hidden : option bool }.

(** The entry as the value [JSON.stringify] sees; an [undefined] field is
    not a property of it. *)
Definition to_json (e : t) : json :=
  JObj (("code", JStr (code e)) ::
        match hidden e with
        | Some h => [("hidden", JBool h)]
        | None => []
        end).
End Exported.

(** [getFiles()]: the own properties of the object it returns.  [exported]
    is an object literal: under the name [__proto__] the assignment replaces
    its prototype by the entry and gives it no key. *)
Definition getFiles (st : StoreState) : obj Exported.t :=
  fold_left
    (fun exported '(filename, file) =>
       let normalized := stripSrcPrefix filename in
       if normalized =? "__proto__" then exported
       else
         set normalized
           {| Exported.code := code file;
              Exported.hidden := Some (hidden file) |}
           exported)
    (entries (files st)) [].

(* ================================================================== *)
(** * Import map, serialization and construction *)
(* ================================================================== *)

Definition bind_result {A B} (r : result A) (k : A -> result B) : result B :=
  match r with
  | Ok a => k a
  | Throw e => Throw e
  | IllTyped => IllTyped
  end.

Notation "x <- r ;; k" := (bind_result r (fun x => k))
  (at level 61, r at next level, right associativity).

(** [builtinImportMap.value.imports || {}], as the table [builtin[key]] is
    read from.  A number or [true] has no own key; an array or a string in
    that place is not an import table. *)
Definition builtin_imports (m : json) : result (obj json) :=
  imports <- Js.field m "imports" ;;
  match imports with
  | Some (JObj t) => Ok t
  | Some (JArr _) => IllTyped
  | Some (JStr s) => if s =? "" then Ok [] else IllTyped
  | _ => Ok []
  end.

(** [builtin[key] === value] *)
Definition same_as_builtin (builtin : obj json) (key : string) (value : json)
  : bool :=
  match get key builtin with
  | Some b => Js.strict_eq b value
  | None => false
  end.

(** The statements of [serialize] on a truthy [parsed.imports]: every entry
    equal to the built-in one is deleted, and the result is what is left in
    [parsed.imports], [None] when the property itself is deleted because no
    key is left.  A deleted array element leaves a hole, which
    [JSON.stringify] prints as [null]; deleting a character of a string
    throws. *)
Definition prune_imports (builtin : obj json) (imports : json)
  : result (option json) :=
  match imports with
  | JObj o =>
      let o' :=
        filter (fun '(key, value) => negb (same_as_builtin builtin key value))
          o in
      Ok (if (List.length o' =? 0)%nat then None else Some (JObj o'))
  | JArr l =>
      let kept :=
        map (fun '(key, value) =>
               if same_as_builtin builtin key value then None else Some value)
          (Js.indexed l) in
      let left :=
        List.length (filter (fun x => match x with Some _ => true
                                               | None => false end) kept) in
      Ok (if (left =? 0)%nat then None
          else Some (JArr (map (fun x => match x with Some v => v
                                                  | None => JNull end) kept)))
  | JStr s =>
      if existsb (fun '(key, value) => same_as_builtin builtin key value)
           (Js.indexed (Js.chars s))
      then Throw TypeError
      else Ok (Some imports)
  | _ => Ok None
  end.

(** [serialize], from [if (parsed.imports)] to the test on
    [Object.keys(parsed)]: the pruned value of [parsed]. *)
Definition prune (builtin : obj json) (parsed : json) : result json :=
  imports <- Js.field parsed "imports" ;;
  match parsed with
  | JObj p =>
      p1 <- (if Js.truthy_opt imports then
               match imports with
               | Some i =>
                   i' <- prune_imports builtin i ;;
                   Ok (match i' with
                       | Some v => replace_val "imports" v p
                       | None => delete "imports" p
                       end)
               | None => Ok p
               end
             else Ok p) ;;
      let scopes := get "scopes" p1 in
      Ok (JObj (if Js.truthy_opt scopes &&
                   (match scopes with
                    | Some s => (Js.keys_length s =? 0)%nat
                    | None => false
                    end)
                then delete "scopes" p1 else p1))
  | _ => Ok parsed
  end.

(** The tsconfig the store writes by default. *)
Definition tsconfig : json :=
  JObj [("compilerOptions",
         JObj [("allowJs", JBool true);
               ("checkJs", JBool true);
               ("jsx", JStr "Preserve");
               ("target", JStr "ESNext");
               ("module", JStr "ESNext");
               ("moduleResolution", JStr "Bundler");
               ("allowImportingTsExtensions", JBool true)])].

(** [map.imports[key] = fixURL(value)] over the entries of an object or an
    array: a truthy value that is not a string has no [replace] method. *)
Fixpoint fix_entries (l : list (string * json))
  : list (string * json) * completion :=
  match l with
  | [] => ([], Normal)
  | (key, value) :: rest =>
      if Js.truthy value then
        match value with
        | JStr url =>
            let (rest', c) := fix_entries rest in
            ((key, JStr (fixURL url)) :: rest', c)
        | _ => (l, Throws TypeError)
        end
      else
        let (rest', c) := fix_entries rest in
        ((key, value) :: rest', c)
  end.

(** The loop of [setImportMap]: the map after the loop, or as far as the loop
    got. *)
Definition fix_imports (map : json) : json * completion :=
  match map with
  | JNull => (map, Throws TypeError)
  | JObj m =>
      match get "imports" m with
      | Some (JObj o) =>
          let (o', c) := fix_entries o in
          (JObj (replace_val "imports" (JObj o') m), c)
      | Some (JArr l) =>
          let (l', c) := fix_entries (Js.indexed l) in
          (JObj (replace_val "imports" (JArr (List.map snd l')) m), c)
      | Some (JStr s) =>
          if s =? "" then (map, Normal) else (map, Throws TypeError)
      | _ => (map, Normal)
      end
  | _ => (map, Normal)
  end.

(** [mainFile.value = Object.keys(files.value).find(i => i.endsWith('.tsx'))] *)
Definition find_tsx (fs : obj File) : option string :=
  List.find (fun i => Str.endsWith i ".tsx") (keys fs).

Definition decode_failure_alert := "Failed to load code from URL.".

(** The loop of [deserialize] over the parsed state. *)
Fixpoint restore (saved : list (string * json)) (st : StoreState)
  : StoreState * completion :=
  match saved with
  | [] => (st, Normal)
  | (filename, value) :: rest =>
      if filename =? "_version" then
        match value with
        | JStr v => restore rest (with_vueVersion st (Some v))
        | JNull => restore rest (with_vueVersion st None)
        | _ => (st, Untyped)
        end
      else
        match Js.field value "code", Js.field value "hidden" with
        | Ok c, Ok h =>
            match
              match c with
              | None => Some ""
              | Some (JStr c) => Some c
              | _ => None
              end,
              match h with
              | None => Some false
              | Some (JBool h) => Some h
              | _ => None
              end
            with
            | Some content, Some hid =>
                restore rest
                  (with_files st (setFile (files st) filename content hid))
            | _, _ => (st, Untyped)
            end
        | Throw e, _ => (st, Throws e)
        | _, Throw e => (st, Throws e)
        | _, _ => (st, Untyped)
        end
  end.

Section Store.

(** The collaborators of the store. *)

(** [JSON.parse]: the value, or the message of the [SyntaxError]. *)
Variable JSON_parse : string -> json + string.
(** [JSON.stringify(v, null, indent)] *)
Variable JSON_stringify : nat -> json -> string.
(** The reversible text encoding of [utils] and its inverse, which throws
    on a text it cannot decode. *)
Variable utoa : string -> string.
Variable atou : string -> string + exn.
(** [mergeImportMap] of [import-map] *)
Variable mergeImportMap : json -> json -> result json.
(** [compileFile(store, file)]: the artifacts it writes into the file and
    the diagnostics it resolves to. *)
Variable compileFile : StoreState -> File -> Compiled * list string.
(** [getViteConfig()]: the dynamic import of the build configuration
    resolves ([None]) or rejects. *)
Variable getViteConfig : StoreState -> option exn.

Definition syntax_error_message (message : string) : string :=
  "Syntax error in " ++ importMapFile ++ ": " ++ message.

(** [getImportMap()] *)
Definition getImportMap (st : StoreState) : json * StoreState :=
  let text :=
    match get importMapFile (files st) with
    | Some f => if code f =? "" then "{}" else code f
    | None => "{}"
    end in
  match JSON_parse text with
  | inl v => (v, st)
  | inr message =>
      (JObj [], with_errors st [syntax_error_message message])
  end.

(** [setImportMap(map)]: the map as the loop left it, and the store. *)
Definition setImportMap (st : StoreState) (map : json)
  : json * StoreState * completion :=
  match fix_imports map with
  | (map', Normal) =>
      let code := JSON_stringify 2 map' in
      let fs :=
        match get importMapFile (files st) with
        | Some f => replace_val importMapFile (with_code f code) (files st)
        | None =>
            set importMapFile (newFile importMapFile code false) (files st)
        end in
      (map', with_files st fs, Normal)
  | (map', c) => (map', st, c)
  end.

(** [applyBuiltinImportMap()]; [importMap.value] and the argument of
    [setImportMap] are one object. *)
Definition applyBuiltinImportMap (st : StoreState)
  : StoreState * completion :=
  let (user, st1) := getImportMap st in
  match mergeImportMap (builtinImportMap st1) user with
  | Ok merged =>
      let '(map', st2, c) := setImportMap (with_importMap st1 merged) merged in
      (with_importMap st2 map', c)
  | Throw e => (st1, Throws e)
  | IllTyped => (st1, Untyped)
  end.

(** The object [serialize] stringifies. *)
Definition serialize_payload (st : StoreState) : result (obj json) :=
  let files := getFiles st in
  files' <-
    match get importMapFile files with
    | Some importMap =>
        match JSON_parse (Exported.code importMap) with
        | inr message => Throw (SyntaxError message)
        | inl parsed =>
            builtin <- builtin_imports (builtinImportMap st) ;;
            parsed' <- prune builtin parsed ;;
            Ok (if (Js.keys_length parsed' =? 0)%nat
                then delete importMapFile files
                else set importMapFile
                       {| Exported.code := JSON_stringify 2 parsed';
                          Exported.hidden := None |} files)
        end
    | None => Ok files
    end ;;
  let payload :=
  List.map (fun kv => (fst kv, Exported.to_json (snd kv))) files' in
  Ok match vueVersion st with
     | Some v => if v =? "" then payload else set "_version" (JStr v) payload
     | None => payload
     end.

(** [serialize()] *)
Definition serialize (st : StoreState) : result string :=
  payload <- serialize_payload st ;;
  Ok ("#" ++ utoa (JSON_stringify 0 (JObj payload))).

(** [deserialize(serializedState)] *)
Definition deserialize (st : StoreState) (serializedState : string)
  : StoreState * list effect * completion :=
  let serializedState :=
    if Str.startsWith serializedState "#"
    then Str.drop 1 serializedState else serializedState in
  let failed (err : exn) :=
    (setDefaultFile st, [ConsoleError err; Alert decode_failure_alert],
     Normal) in
  match atou serializedState with
  | inr err => failed err
  | inl text =>
      match JSON_parse text with
      | inr message => failed (SyntaxError message)
      | inl saved =>
          let (st', c) := restore (Js.own_entries saved) st in
          (st', [], c)
      end
  end.

(** The compile loop of [setFiles]. *)
Definition compile_all (st : StoreState) (fs : obj File)
  : obj File * list string :=
  (List.map (fun '(k, f) => (k, with_compiled f (fst (compileFile st f)))) fs,
   flat_map (fun f => snd (compileFile st f)) (values fs)).

(** [setFiles(newFiles, mainFile = store.mainFile)], run without another
    task of the event loop in between.  The new mapping is created by
    [Object.create(null)]. *)
Definition setFiles (st : StoreState) (newFiles : obj string)
  (mainFile' : option string) : StoreState * completion :=
  let mainFile' :=
    addSrcPrefix (match mainFile' with Some m => m | None => mainFile st end)
  in
  let fs :=
    match get mainFile' newFiles with
    | Some content =>
        if content =? ""
        then setFile [] mainFile' (welcome (template st)) false else []
    | None => setFile [] mainFile' (welcome (template st)) false
    end in
  let fs :=
    fold_left (fun fs '(filename, file) => setFile fs filename file false)
      (entries newFiles) fs in
  let (fs, errs) := compile_all st fs in
  let st1 :=
    with_errors
      (with_filesProto (with_files (with_mainFile st mainFile') fs)
         NoPrototype) errs in
  match applyBuiltinImportMap st1 with
  | (st2, Normal) => (setActive st2 (mainFile st2), Normal)
  | (st2, c) => (st2, c)
  end.

(** [compileFile(store, v)] is started, its diagnostics to replace the error
    list or to be pushed onto it. *)
Definition compile_found (v : found) (k : errors_update) : effect :=
  match v with
  | Own f | Proto f => Compile f k
  | _ => CompileOther k
  end.

(** [init()], up to the end of its body.  [watchEffect] runs its callback
    once when it is installed: the active file and the active configuration
    file (the computed [activeFile] and [activeConfigFile], which read the
    mapping under the active names; a missing configuration file is
    replaced by a preset, which is not a file) are compiled before the loop
    over the files.  The other watchers, and the later runs of this one, are
    not part of [init].  A computed value that throws does so inside the
    framework: the run leaves the model. *)
Definition init (st : StoreState) : StoreState * list effect * completion :=
  let st1 :=
    if has tsconfigFile (files st) then st
    else with_files st
           (set tsconfigFile
              (newFile tsconfigFile (JSON_stringify 2 tsconfig) false)
              (files st)) in
  match getViteConfig st1 with
  | Some e => (st1, [], Throws e)
  | None =>
      let activeFile :=
        lookup (filesProto st1) (files st1) (activeFilename st1) in
      let activeConfigFile :=
        lookup (filesProto st1) (files st1) (activeConfigFilename st1) in
      match activeFile, activeConfigFile with
      | Raises, _ | _, Raises => (st1, [], Untyped)
      | _, _ =>
          (with_errors st1 [],
           (compile_found activeFile ReplaceErrors ::
            compile_found activeConfigFile ReplaceErrors ::
            List.map (fun '(_, file) => Compile file PushErrors)
              (filter (fun '(filename, _) => negb (filename =? mainFile st1))
                 (entries (files st1))))%list,
           Normal)
      end
  end.

(** [useStore(state, serializedState)].  [st] holds the refs the caller
    passed with the defaults filled in, [activeFilename'] is the ref for
    the active file name if the caller passed one.  When the main file is
    missing and no file name ends in [.tsx], [find] returns [undefined] and
    the store is returned with [mainFile.value = undefined], which is not a
    string: the run leaves the model. *)
Definition useStore (st : StoreState) (activeFilename' : option string)
  (serializedState : option string)
  : StoreState * list effect * completion :=
  let '(st1, effs, c) :=
    match serializedState with
    | Some s =>
        if s =? "" then (setDefaultFile st, [], Normal) else deserialize st s
    | None => (setDefaultFile st, [], Normal)
    end in
  match c with
  | Normal =>
      match lookup (filesProto st1) (files st1) (mainFile st1) with
      | Raises => (st1, effs, Throws TypeError)
      | v =>
          let main :=
            match v with
            | Undefined => find_tsx (files st1)
            | _ => Some (mainFile st1)
            end in
          match main with
          | None => (st1, effs, Untyped)
          | Some m =>
              let st2 := with_mainFile st1 m in
              let st3 :=
                with_activeFilename st2
                  (match activeFilename' with Some a => a | None => m end) in
              let (st4, c) := applyBuiltinImportMap st3 in
              (st4, effs, c)
          end
      end
  | _ => (st1, effs, c)
  end.

End Store.

(* ================================================================== *)
(** * A JSON reader and printer, and a text encoding, to run examples *)
(* ================================================================== *)

(** An instance of the collaborators on which the store can be evaluated:
    a JSON printer and reader for literals, strings, arrays and objects
    (number literals are not read, numbers print as [null]), and a
    hexadecimal text encoding. *)
Module Example.

Definition nl : string := String (ascii_of_nat 10) EmptyString.

Fixpoint spaces (n : nat) : string :=
  match n with
  | O => ""
  | S n' => String " " (spaces n')
  end.

Definition hex_digit (n : nat) : ascii :=
  ascii_of_nat (if (n <? 10)%nat then 48 + n else 87 + n).

Definition hex_val (c : ascii) : option nat :=
  let n := nat_of_ascii c in
  if ((48 <=? n) && (n <=? 57))%nat then Some (n - 48)
  else if ((97 <=? n) && (n <=? 102))%nat then Some (n - 87)
  else None.

Definition escape_char (c : ascii) : string :=
  let n := nat_of_ascii c in
  if (n =? 34)%nat then "\" ++ Str.dq
  else if (n =? 92)%nat then "\\"
  else if (n =? 10)%nat then "\n"
  else if (n =? 13)%nat then "\r"
  else if (n =? 9)%nat then "\t"
  else if (n =? 8)%nat then "\b"
  else if (n =? 12)%nat then "\f"
  else if (n <? 32)%nat
       then "\u00" ++ String (hex_digit (n / 16))
                        (String (hex_digit (n mod 16)) EmptyString)
       else String c EmptyString.

Fixpoint escape (s : string) : string :=
  match s with
  | EmptyString => ""
  | String c s' => escape_char c ++ escape s'
  end.

Definition print_string (s : string) : string := Str.quoted (escape s).

Fixpoint join (sep : string) (l : list string) : string :=
  match l with
  | [] => ""
  | [x] => x
  | x :: l' => x ++ sep ++ join sep l'
  end.

(** [JSON.stringify(v, null, indent)] at nesting depth [depth]. *)
Fixpoint print (indent depth : nat) (v : json) : string :=
  let inner := spaces (indent * S depth) in
  let open_ := if (indent =? 0)%nat then "" else nl ++ inner in
  let close_ := if (indent =? 0)%nat then "" else nl ++ spaces (indent * depth) in
  let sep := if (indent =? 0)%nat then "," else "," ++ nl ++ inner in
  let colon := if (indent =? 0)%nat then ":" else ": " in
  match v with
  | JNull => "null"
  | JBool true => "true"
  | JBool false => "false"
  | JNum _ => "null"
  | JStr s => print_string s
  | JArr [] => "[]"
  | JArr l =>
      "[" ++ open_ ++ join sep (List.map (print indent (S depth)) l) ++
      close_ ++ "]"
  | JObj [] => "{}"
  | JObj o =>
      "{" ++ open_ ++
      join sep
        (List.map (fun kv => print_string (fst kv) ++ colon ++
                             print indent (S depth) (snd kv)) o) ++
      close_ ++ "}"
  end.

Definition JSON_stringify (indent : nat) (v : json) : string :=
  print indent 0 v.

Definition is_space (c : ascii) : bool :=
  let n := nat_of_ascii c in
  (n =? 32)%nat || (n =? 10)%nat || (n =? 13)%nat || (n =? 9)%nat.

Fixpoint skip_ws (s : string) : string :=
  match s with
  | String c s' => if is_space c then skip_ws s' else s
  | EmptyString => s
  end.

(** The characters of a string literal after its opening quote, and the
    text after its closing quote. *)
Fixpoint read_chars (s : string) : option (string * string) :=
  match s with
  | EmptyString => None
  | String c s' =>
      let n := nat_of_ascii c in
      if (n =? 34)%nat then Some ("", s')
      else if (n <? 32)%nat then None
      else if (n =? 92)%nat then
        match s' with
        | String e s'' =>
            let plain (d : ascii) :=
              match read_chars s'' with
              | Some (r, t) => Some (String d r, t)
              | None => None
              end in
            let m := nat_of_ascii e in
            if (m =? 34)%nat then plain e
            else if (m =? 92)%nat then plain e
            else if (m =? 47)%nat then plain e
            else if (m =? 110)%nat then plain (ascii_of_nat 10)
            else if (m =? 114)%nat then plain (ascii_of_nat 13)
            else if (m =? 116)%nat then plain (ascii_of_nat 9)
            else if (m =? 98)%nat then plain (ascii_of_nat 8)
            else if (m =? 102)%nat then plain (ascii_of_nat 12)
            else if (m =? 117)%nat then
              match s'' with
              | String "0" (String "0" (String h (String l t0))) =>
                  match hex_val h, hex_val l, read_chars t0 with
                  | Some a, Some b, Some (r, t) =>
                      Some (String (ascii_of_nat (16 * a + b)) r, t)
                  | _, _, _ => None
                  end
              | _ => None
              end
            else None
        | EmptyString => None
        end
      else
        match read_chars s' with
        | Some (r, t) => Some (String c r, t)
        | None => None
        end
  end.

(** One value and the text after it.  The members of an object are
    created in the order of the text, so the object lists them in
    own-key order. *)
Fixpoint read_value (fuel : nat) (s : string) : option (json * string) :=
  match fuel with
  | O => None
  | S fuel' =>
      let read_elements :=
        fix elems (n : nat) (acc : list json) (s : string)
          : option (json * string) :=
          match n with
          | O => None
          | S n' =>
              match read_value fuel' s with
              | Some (v, t) =>
                  match skip_ws t with
                  | String "," t' => elems n' (acc ++ [v])%list t'
                  | String "]" t' => Some (JArr (acc ++ [v])%list, t')
                  | _ => None
                  end
              | None => None
              end
          end in
      let read_members :=
        fix membs (n : nat) (acc : list (string * json)) (s : string)
          : option (json * string) :=
          match n with
          | O => None
          | S n' =>
              match skip_ws s with
              | String q t0 =>
                  if (nat_of_ascii q =? 34)%nat then
                    match read_chars t0 with
                    | Some (k, t1) =>
                        match skip_ws t1 with
                        | String ":" t2 =>
                            match read_value fuel' t2 with
                            | Some (v, t3) =>
                                match skip_ws t3 with
                                | String "," t' => membs n' (set k v acc) t'
                                | String "}" t' => Some (JObj (set k v acc), t')
                                | _ => None
                                end
                            | None => None
                            end
                        | _ => None
                        end
                    | None => None
                    end
                  else None
              | EmptyString => None
              end
          end in
      match skip_ws s with
      | String "n" (String "u" (String "l" (String "l" t))) => Some (JNull, t)
      | String "t" (String "r" (String "u" (String "e" t))) =>
          Some (JBool true, t)
      | String "f" (String "a" (String "l" (String "s" (String "e" t)))) =>
          Some (JBool false, t)
      | String "[" t =>
          match skip_ws t with
          | String "]" t' => Some (JArr [], t')
          | _ => read_elements (String.length t) [] t
          end
      | String "{" t =>
          match skip_ws t with
          | String "}" t' => Some (JObj [], t')
          | _ => read_members (String.length t) [] t
          end
      | String q t =>
          if (nat_of_ascii q =? 34)%nat then
            match read_chars t with
            | Some (r, t') => Some (JStr r, t')
            | None => None
            end
          else None
      | EmptyString => None
      end
  end.

Definition JSON_parse (s : string) : json + string :=
  match read_value (S (String.length s)) s with
  | Some (v, t) =>
      match skip_ws t with
      | EmptyString => inl v
      | _ => inr "Unexpected non-whitespace character after JSON"
      end
  | None => inr "Unexpected token or end of JSON input"
  end.

(** Modelled from the spec: [utoa] and [atou] of [utils], which are not
    among the sources, are a reversible encoding of a text into a URL-safe
    one; here two hexadecimal digits per character. *)
Fixpoint utoa (s : string) : string :=
  match s with
  | EmptyString => ""
  | String c s' =>
      let n := nat_of_ascii c in
      String (hex_digit (n / 16)) (String (hex_digit (n mod 16)) (utoa s'))
  end.

Fixpoint atou_digits (s : string) : option string :=
  match s with
  | EmptyString => Some ""
  | String h (String l s') =>
      match hex_val h, hex_val l, atou_digits s' with
      | Some a, Some b, Some r => Some (String (ascii_of_nat (16 * a + b)) r)
      | _, _, _ => None
      end
  | _ => None
  end.

Definition atou (s : string) : string + exn :=
  match atou_digits s with
  | Some r => inl r
  | None => inr (OtherError "The string to be decoded is not correctly encoded.")
  end.

(** Modelled from the spec: [mergeImportMap(a, b)] of [import-map], which
    is not among the sources: the imports and the scopes of [b] laid over
    those of [a], key for key. *)
Definition spread (a b : option json) : list (string * json) :=
  fold_left (fun acc kv => set (fst kv) (snd kv) acc)
    (match b with Some v => Js.own_entries v | None => [] end)
    (fold_left (fun acc kv => set (fst kv) (snd kv) acc)
       (match a with Some v => Js.own_entries v | None => [] end) []).

Definition mergeImportMap (a b : json) : result json :=
  ai <- Js.field a "imports" ;;
  bi <- Js.field b "imports" ;;
  asc <- Js.field a "scopes" ;;
  bsc <- Js.field b "scopes" ;;
  Ok (JObj [("imports", JObj (spread ai bi));
            ("scopes", JObj (spread asc bsc))]).

Definition compileFile (st : StoreState) (f : File) : Compiled * list string :=
  (compiled f, []).

Definition getViteConfig (st : StoreState) : option exn := None.

End Example.

(* ================================================================== *)
(** * Example stores *)
(* ================================================================== *)

(** The store used in the examples: the default files of a template, as
    [useStore] builds it with the example collaborators. *)
Definition example_template : Template :=
  {| indexHtml := "<div id=app></div>"; welcome := "export default () => 1";
     new := "export default () => 0"; viteConfig := "export default {}" |}.

Definition example_refs : StoreState :=
  {| files := []; filesProto := NoPrototype;
     activeFilename := ""; activeConfigFilename := viteConfigFile;
     mainFile := welcomeFile;
     builtinImportMap := JObj [("imports", JObj [("vue", JStr "https://A")])];
     errors := []; vueVersion := None; importMap := JObj [];
     tsMacroConfigCode := "export default { plugins: [] }";
     template := example_template |}.

Definition example_store : StoreState :=
  fst (fst (useStore Example.JSON_parse Example.JSON_stringify Example.atou
              Example.mergeImportMap example_refs None None)).


(** The example store after the user has typed an import map by hand:
    [store_with_import_map c] holds an import-map file of content [c]. *)
Definition store_with_import_map (content : string) : StoreState :=
  with_files example_store
    (set importMapFile (newFile importMapFile content false)
       (files example_store)).

(* ================================================================== *)
(** * Statements of the specification that need an amendment *)
(* ================================================================== *)


(** "When the content of the import-map file is not valid JSON,
    [getImportMap] records exactly one diagnostic naming the file and the
    parse error and returns an empty map." *)
Definition getImportMap_reports (JSON_parse : string -> json + string)
  (st : StoreState) : Prop :=
  forall f message,
    get importMapFile (files st) = Some f ->
    JSON_parse (code f) = inr message ->
    getImportMap JSON_parse st =
      (JObj [], with_errors st [syntax_error_message message]).

(** An import map as its TypeScript type describes it, as far as
    [setImportMap] looks: an object whose [imports], if present, is an
    object of strings. *)
Definition is_import_map (map : json) : bool :=
  match map with
  | JObj m =>
      match get "imports" m with
      | None => true
      | Some (JObj o) =>
          forallb (fun kv => match snd kv with JStr _ => true | _ => false end)
            o
      | Some _ => false
      end
  | _ => false
  end.

(** The import map with [fixURL] applied to every value of [imports]. *)
Definition fixed_urls (map : json) : json :=
  match map with
  | JObj m =>
      match get "imports" m with
      | Some (JObj o) =>
          JObj (replace_val "imports"
                  (JObj (List.map
                           (fun kv =>
                              (fst kv,
                               match snd kv with
                               | JStr url => JStr (fixURL url)
                               | v => v
                               end)) o)) m)
      | _ => map
      end
  | _ => map
  end.

(** An import map whose only entry points at the public host. *)
Definition example_import_map : json :=
  JObj [("imports", JObj [("vue", JStr "https://sfc.vuejs.org/vue.js")])].

(** The key [k] after [oldFilename] has been renamed to [newFilename]. *)
Definition renamed_key (oldFilename newFilename k : string) : string :=
  if k =? oldFilename then newFilename else k.




(* ================================================================== *)
(** * The states a store goes through *)
(* ================================================================== *)

(** A call of one of the store's operations; a [deleteFile] comes with the
    answer the prompt gave. *)
Inductive op : Type :=
| AddFile (fileOrFilename : string + File)
| DeleteFile (filename : string) (answer : bool)
| RenameFile (oldFilename newFilename : string)
| SetFiles (newFiles : obj string) (mainFile' : option string)
| Deserialize (serializedState : string)
| Init
| SetActive (filename : string).

(** The store a call leaves, whether it returned or threw; [None] when the
    run left the model. *)
Definition settled (st : StoreState) (c : completion) : option StoreState :=
  match c with
  | Untyped => None
  | _ => Some st
  end.

Section Reachable.

Variable JSON_parse : string -> json + string.
Variable JSON_stringify : nat -> json -> string.
Variable atou : string -> string + exn.
Variable mergeImportMap : json -> json -> result json.
Variable compileFile : StoreState -> File -> Compiled * list string.
Variable getViteConfig : StoreState -> option exn.

Definition run (o : op) (st : StoreState) : option StoreState :=
  match o with
  | AddFile x => let (st', c) := addFile st x in settled st' c
  | DeleteFile f answer => Some (deleteFile (fun _ => answer) st f)
  | RenameFile oldFilename newFilename =>
      let '(st', _, c) := renameFile st oldFilename newFilename in
      settled st' c
  | SetFiles newFiles m =>
      let (st', c) :=
        setFiles JSON_parse JSON_stringify mergeImportMap compileFile st
          newFiles m in
      settled st' c
  | Deserialize s =>
      let '(st', _, c) := deserialize JSON_parse atou st s in settled st' c
  | Init =>
      let '(st', _, c) := init JSON_stringify getViteConfig st in settled st' c
  | SetActive f => Some (setActive st f)
  end.


End Reachable.



(** [st'] has the main file of [st] and at least its files. *)
Definition extends (st st' : StoreState) : Prop :=
  mainFile st' = mainFile st /\
  forall k, has k (files st) = true -> has k (files st') = true.

(* ================================================================== *)
(** * What a serialized store holds *)
(* ================================================================== *)

(** The framework version [serialize] writes: a selected, non-empty one. *)
Definition selected_version (st : StoreState) : option string :=
  match vueVersion st with
  | Some v => if v =? "" then None else Some v
  | None => None
  end.

(** The content [serialize] exports for the import-map file: the
    pretty-printed JSON of its pruned content, or nothing when the file is
    absent or pruned to an object without keys. *)
Definition exported_import_map (JSON_parse : string -> json + string)
  (JSON_stringify : nat -> json -> string) (st : StoreState)
  : result (option string) :=
  match get importMapFile (files st) with
  | None => Ok None
  | Some f =>
      match JSON_parse (code f) with
      | inr message => Throw (SyntaxError message)
      | inl parsed =>
          builtin <- builtin_imports (builtinImportMap st) ;;
          parsed' <- prune builtin parsed ;;
          Ok (if (Js.keys_length parsed' =? 0)%nat then None
              else Some (JSON_stringify 2 parsed'))
      end
  end.

(** The entries of the exported object, for a file mapping [fs] and the
    content [importMap] exported for the import-map file. *)
Definition exported_files (importMap : option string) (fs : obj File)
  : obj Exported.t :=
  let all :=
    List.map
      (fun kv =>
         (stripSrcPrefix (fst kv),
          {| Exported.code := code (snd kv);
             Exported.hidden := Some (hidden (snd kv)) |})) fs in
  match importMap with
  | Some content =>
      replace_val importMapFile
        {| Exported.code := content; Exported.hidden := None |} all
  | None => delete importMapFile all
  end.

Definition version_entry (st : StoreState) : list (string * json) :=
  match selected_version st with
  | Some v => [("_version", JStr v)]
  | None => []
  end.

(** The object a well-named store serializes. *)
Definition payload_of (importMap : option string) (st : StoreState)
  : obj json :=
  (List.map (fun kv => (fst kv, Exported.to_json (snd kv)))
     (exported_files importMap (files st)) ++ version_entry st)%list.

(** The file names are in the form [addSrcPrefix] gives a name, none of them
    reads [_version] once stripped, and the stripped names are distinct and
    in own-key order (no stripped name is an array index, for instance). *)
Definition well_named (fs : obj File) : Prop :=
  wf fs = true /\
  (forall k, In k (keys fs) -> addSrcPrefix (stripSrcPrefix k) = k) /\
  key_order (List.map stripSrcPrefix (keys fs)) = true /\
  ~ In "_version" (List.map stripSrcPrefix (keys fs)).

(** The files [deserialize] builds from a serialized mapping [fs]: a new
    file object per file, with its name, code and hidden flag; the
    import-map file with the exported content and not hidden, or no
    import-map file when none was exported. *)
Definition rebuilt (importMap : option string) (fs : obj File) : obj File :=
  let all :=
    List.map
      (fun kv => (fst kv, newFile (fst kv) (code (snd kv)) (hidden (snd kv))))
      fs in
  match importMap with
  | Some content =>
      replace_val importMapFile (newFile importMapFile content false) all
  | None => delete importMapFile all
  end.

(** "[deserialize(serialize())] reconstructs an equivalent file set, main
    file and version selection": serializing [src] and deserializing into
    [tgt] gives a store with the files of [src] (code and hidden flag the
    same; the import-map file left aside), its main file and its version. *)
Definition same_files (src st' : StoreState) : Prop :=
  (forall k f,
     get k (files src) = Some f -> k <> importMapFile ->
     exists f', get k (files st') = Some f' /\ code f' = code f /\
                hidden f' = hidden f) /\
  (forall k, k <> importMapFile -> has k (files st') = has k (files src)).

Definition round_trip_restores (JSON_parse : string -> json + string)
  (JSON_stringify : nat -> json -> string) (utoa : string -> string)
  (atou : string -> string + exn) (tgt src : StoreState) : Prop :=
  exists s st' effs,
    serialize JSON_parse JSON_stringify utoa src = Ok s /\
    deserialize JSON_parse atou tgt s = (st', effs, Normal) /\
    same_files src st' /\
    mainFile st' = mainFile src /\
    vueVersion st' = vueVersion src.

(** The example store with one more file, added under a bare name. *)
Definition store_with_bare_name : StoreState :=
  fst (addFile example_store (inl "util.ts")).

(** A store whose main file is not the default one: the example store after
    [setFiles] with [Main.tsx] as the main file. *)
Definition store_with_other_main : StoreState :=
  fst (setFiles Example.JSON_parse Example.JSON_stringify
         Example.mergeImportMap Example.compileFile example_store
         [("App.tsx", "export default () => 1");
          ("Main.tsx", "export default () => 2")]
         (Some "Main.tsx")).

(** The example store with a framework version selected and an import map
    that overrides nothing but adds an entry. *)
Definition store_with_version : StoreState :=
  with_vueVersion
    (snd (fst (setImportMap Example.JSON_stringify example_store
                 (JObj [("imports",
                         JObj [("vue", JStr "https://A");
                               ("foo", JStr "https://B")])]))))
    (Some "3.4.0").

(** The hidden flag [setFile] gets for an exported entry: [false] when the
    entry has none. *)
Definition hidden_or_false (e : Exported.t) : bool :=
  match Exported.hidden e with Some h => h | None => false end.

(** What [serialize] exports for the import map of [store_with_version]:
    the entry equal to the built-in one is gone. *)
Definition example_exported_import_map : string :=
  Example.JSON_stringify 2 (JObj [("imports", JObj [("foo", JStr "https://B")])]).

(** The URL values of an import map: the values of [imports] and the values
    of every scope of [scopes]. *)
Definition string_values (v : option json) : list string :=
  match v with
  | Some (JObj o) =>
      flat_map (fun kv => match snd kv with JStr s => [s] | _ => [] end) o
  | _ => []
  end.

Definition url_values (map : json) : list string :=
  match map with
  | JObj m =>
      (string_values (get "imports" m) ++
       flat_map (fun kv => string_values (Some (snd kv)))
         (match get "scopes" m with Some (JObj sc) => sc | _ => [] end))%list
  | _ => []
  end.

(** "[setImportMap(map)] rewrites any URL value of the import map that
    matches the public host, and writes the pretty-printed map as the
    content of the import-map file." *)
Definition setImportMap_rewrites_all (JSON_stringify : nat -> json -> string)
  (st : StoreState) (map : json) : Prop :=
  let '(map', st', c) := setImportMap JSON_stringify st map in
  c = Normal /\
  url_values map' = List.map fixURL (url_values map) /\
  exists f, get importMapFile (files st') = Some f /\
            code f = JSON_stringify 2 map'.

(** An import map with a scope whose entry points at the public host. *)
Definition example_scoped_import_map : json :=
  JObj [("imports", JObj [("vue", JStr "https://sfc.vuejs.org/vue.js")]);
        ("scopes",
         JObj [("https://example.org/",
                JObj [("vue", JStr "https://sfc.vuejs.org/vue.js")])])].

(** The example store with a file whose stripped name is [_version]. *)
Definition store_with_version_file : StoreState :=
  fst (addFile example_store (inl "src/_version")).

(* ================================================================== *)
(** * More of the store *)
(* ================================================================== *)

(** [get language()] of [File] *)
Definition language (f : File) : string :=
  if Str.endsWith (filename f) ".vue" then "vue"
  else if Str.endsWith (filename f) ".html" then "html"
  else if Str.endsWith (filename f) ".css" then "css"
  else if Str.endsWith (filename f) ".ts" then "typescript"
  else "javascript".

(** [getTsConfig()]: reading the code of a missing file throws inside the
    [try], like a parse error, and the [catch] returns [{}]. *)
Definition getTsConfig (JSON_parse : string -> json + string)
  (st : StoreState) : json :=
  match get tsconfigFile (files st) with
  | None => JObj []
  | Some f =>
      match JSON_parse (code f) with
      | inl v => v
      | inr _ => JObj []
      end
  end.

(** A name [addSrcPrefix] prefixes: not reserved, not under [src/]. *)
Definition bare (f : string) : bool :=
  negb (reserved f) && negb (Str.startsWith f "src/").

(** Every file is stored under its own [filename]. *)
Definition named (fs : obj File) : Prop :=
  forall k f, In (k, f) fs -> filename f = k.

(** The text [deserialize] decodes: the serialized state without its
    leading [#]. *)
Definition serialized_body (serializedState : string) : string :=
  if Str.startsWith serializedState "#"
  then Str.drop 1 serializedState else serializedState.

(** The import-map file holds the printed [importMap] of the store. *)
Definition synced (JSON_stringify : nat -> json -> string) (st : StoreState)
  : Prop :=
  exists f, get importMapFile (files st) = Some f /\
            code f = JSON_stringify 2 (importMap st).


(** The example references after [applyBuiltinImportMap]. *)
Definition example_applied : StoreState :=
  fst (applyBuiltinImportMap Example.JSON_parse Example.JSON_stringify
         Example.mergeImportMap example_refs).

(** The example references after [setImportMap] of the example import map. *)
Definition example_mapped : json * StoreState :=
  fst (setImportMap Example.JSON_stringify example_refs example_import_map).

(** The example store with a file whose stripped name is [__proto__]. *)
Definition store_with_proto_file : StoreState :=
  fst (addFile example_store (inl "src/__proto__")).
(* ================================================================== *)
(** * Facts about strings and objects *)
(* ================================================================== *)

Module StrFacts.
Import Str.

Lemma prefix_app p s : prefix p (p ++ s) = true.
Proof.
  induction p as [|c p IH]; simpl.
  - now destruct s.
  - destruct (ascii_dec c c); [exact IH | congruence].
Qed.

Lemma prefix_split p s :
  prefix p s = true -> s = p ++ drop (String.length p) s.
Proof.
  revert s; induction p as [|c p IH]; intros s H.
  - reflexivity.
  - destruct s as [|d s]; [discriminate|]. simpl in H.
    destruct (ascii_dec c d) as [->|]; [|discriminate].
    simpl. f_equal. now apply IH.
Qed.

Lemma drop_app p s : drop (String.length p) (p ++ s) = s.
Proof. induction p; simpl; auto. Qed.

Lemma length_app s t :
  String.length (s ++ t) = (String.length s + String.length t)%nat.
Proof. induction s; simpl; auto. Qed.

Lemma app_neq_self p s : p <> "" -> p ++ s <> s.
Proof.
  intros Hp E. apply (f_equal String.length) in E.
  rewrite length_app in E. destruct p; [congruence | simpl in E; lia].
Qed.

Lemma replace_first_eq pat rep s :
  replace_first pat rep s =
  if prefix pat s then rep ++ drop (String.length pat) s
  else match s with
       | EmptyString => s
       | String c s' => String c (replace_first pat rep s')
       end.
Proof. destruct s; reflexivity. Qed.

Lemma occurs_eq pat s :
  occurs pat s =
  prefix pat s || match s with
                  | EmptyString => false
                  | String _ s' => occurs pat s'
                  end.
Proof. destruct s; reflexivity. Qed.

Lemma replace_first_absent pat rep s :
  occurs pat s = false -> replace_first pat rep s = s.
Proof.
  induction s as [|c s IH]; rewrite occurs_eq, replace_first_eq; intros H;
    apply orb_false_iff in H as [H1 H2]; rewrite H1.
  - reflexivity.
  - f_equal. auto.
Qed.

Lemma replace_first_present pat rep s :
  occurs pat s = true ->
  exists a b, s = a ++ pat ++ b /\ replace_first pat rep s = a ++ rep ++ b /\
              forall a' b', s = a' ++ pat ++ b' ->
                            (String.length a <= String.length a')%nat.
Proof.
  induction s as [|c s IH]; rewrite occurs_eq, replace_first_eq; intros H.
  - rewrite orb_false_r in H. rewrite H.
    exists "", (drop (String.length pat) ""). split; [|split].
    + now apply prefix_split.
    + reflexivity.
    + intros; apply Nat.le_0_l.
  - destruct (prefix pat (String c s)) eqn:P.
    + exists "", (drop (String.length pat) (String c s)). split; [|split].
      * now apply prefix_split.
      * reflexivity.
      * intros; apply Nat.le_0_l.
    + simpl in H. destruct (IH H) as (a & b & E & R & M).
      exists (String c a), b. split; [|split].
      * simpl. now rewrite <- E.
      * simpl. now rewrite R.
      * intros a' b' E'. destruct a' as [|c' a'].
        -- simpl in E'. rewrite E' in P. now rewrite prefix_app in P.
        -- simpl in E'. injection E' as _ E'. simpl. apply le_n_S. eauto.
Qed.

End StrFacts.

Module ObjFacts.

Lemma eqb_refl_s (k : string) : (k =? k) = true.
Proof. apply String.eqb_refl. Qed.

Lemma mem_In k l : mem k l = true <-> In k l.
Proof.
  induction l as [|k' l IH]; simpl.
  - split; [discriminate | tauto].
  - rewrite orb_true_iff, IH, String.eqb_eq. intuition congruence.
Qed.

Lemma mem_false k l : mem k l = false <-> ~ In k l.
Proof.
  rewrite <- mem_In. destruct (mem k l); intuition congruence.
Qed.

Section Ops.
Context {V : Type}.
Implicit Types (o : obj V) (k : string) (v : V).

Lemma get_None_keys k o : get k o = None <-> ~ In k (keys o).
Proof.
  induction o as [|[k' v'] o IH]; simpl.
  - tauto.
  - destruct (String.eqb_spec k k') as [->|N].
    + split; [discriminate | intros H; exfalso; apply H; now left].
    + rewrite IH. intuition congruence.
Qed.

Lemma has_keys k o : has k o = true <-> In k (keys o).
Proof.
  unfold has. destruct (get k o) eqn:E.
  - split; [intros _|reflexivity].
    destruct (in_dec string_dec k (keys o)) as [I|I]; [exact I|].
    apply get_None_keys in I. congruence.
  - apply get_None_keys in E. split; [discriminate | tauto].
Qed.

Lemma has_false k o : has k o = false <-> get k o = None.
Proof. unfold has. destruct (get k o); intuition congruence. Qed.

Lemma keys_replace_val k v o : keys (replace_val k v o) = keys o.
Proof.
  induction o as [|[k' v'] o IH]; simpl; [reflexivity|].
  destruct (k =? k'); simpl; [reflexivity | now rewrite IH].
Qed.

Lemma get_replace_val k v o g :
  get g (replace_val k v o) =
  if g =? k then (if has k o then Some v else None) else get g o.
Proof.
  induction o as [|[k' v'] o IH]; simpl.
  - cbn. now destruct (g =? k).
  - unfold has in *. simpl.
    destruct (String.eqb_spec k k') as [->|N]; simpl.
    + destruct (String.eqb_spec g k'); reflexivity.
    + rewrite IH. destruct (String.eqb_spec g k') as [->|N'].
      * destruct (String.eqb_spec k' k); [congruence | reflexivity].
      * reflexivity.
Qed.

Lemma keys_insert_new k v o :
  forall g, In g (keys (insert_new k v o)) <-> g = k \/ In g (keys o).
Proof.
  induction o as [|[k' v'] o IH]; simpl; intros g.
  - intuition.
  - destruct (precedes k k'); simpl; [intuition|].
    rewrite IH. intuition.
Qed.

Lemma get_insert_new k v o g :
  get k o = None ->
  get g (insert_new k v o) = if g =? k then Some v else get g o.
Proof.
  induction o as [|[k' v'] o IH]; simpl; intros H.
  - reflexivity.
  - destruct (String.eqb_spec k k') as [->|N]; [discriminate|].
    destruct (precedes k k'); simpl.
    + reflexivity.
    + rewrite (IH H).
      destruct (String.eqb_spec g k') as [->|N'];
        [destruct (String.eqb_spec k' k); congruence | reflexivity].
Qed.

(** Reading after writing. *)
Lemma get_set k v o g :
  get g (set k v o) = if g =? k then Some v else get g o.
Proof.
  unfold set. destruct (has k o) eqn:H.
  - rewrite get_replace_val, H. reflexivity.
  - apply has_false in H. now apply get_insert_new.
Qed.

Lemma In_keys_set k v o g :
  In g (keys (set k v o)) <-> g = k \/ In g (keys o).
Proof.
  rewrite <- !has_keys. unfold has. rewrite get_set.
  destruct (String.eqb_spec g k) as [->|N].
  - intuition.
  - destruct (get g o); intuition congruence.
Qed.

Lemma keys_delete k o :
  keys (delete k o) = filter (fun g => negb (g =? k)) (keys o).
Proof.
  induction o as [|[k' v'] o IH]; simpl; [reflexivity|].
  rewrite (String.eqb_sym k' k).
  destruct (k =? k'); simpl; now rewrite IH.
Qed.

Lemma get_delete k o g :
  get g (delete k o) = if g =? k then None else get g o.
Proof.
  induction o as [|[k' v'] o IH]; simpl.
  - now destruct (g =? k).
  - destruct (String.eqb_spec k k') as [->|N]; simpl.
    + rewrite IH. destruct (String.eqb_spec g k'); reflexivity.
    + rewrite IH. destruct (String.eqb_spec g k') as [->|N'].
      * destruct (String.eqb_spec k' k); congruence.
      * reflexivity.
Qed.

Lemma delete_absent k o : get k o = None -> delete k o = o.
Proof.
  induction o as [|[k' v'] o IH]; simpl; [reflexivity|].
  destruct (k =? k'); [discriminate|]. intros H. now rewrite IH.
Qed.

(** A new key that no present key has to follow goes to the end. *)
Lemma insert_new_last k v o :
  forallb (fun k' => negb (precedes k k')) (keys o) = true ->
  insert_new k v o = (o ++ [(k, v)])%list.
Proof.
  induction o as [|[k' v'] o IH]; simpl; intros H; [reflexivity|].
  apply andb_true_iff in H as [H1 H2].
  apply negb_true_iff in H1. rewrite H1. now rewrite IH.
Qed.

End Ops.

Lemma key_order_app_last l k :
  key_order (l ++ [k])%list = true ->
  mem k l = false /\ forallb (fun k' => negb (precedes k k')) l = true /\
  key_order l = true.
Proof.
  induction l as [|a l IH]; simpl; intros H; [auto|].
  apply andb_true_iff in H as [H H3]. apply andb_true_iff in H as [H1 H2].
  destruct (IH H3) as (M & F & O).
  rewrite forallb_app in H2. apply andb_true_iff in H2 as [H2 H2'].
  simpl in H2'. rewrite andb_true_r in H2'.
  apply negb_true_iff in H1.
  assert (Ha : mem a l = false /\ (a =? k) = false).
  { apply mem_false in H1. split.
    - apply mem_false. intros I. apply H1. apply in_or_app. now left.
    - apply String.eqb_neq. intros ->. apply H1. apply in_or_app.
      right. now left. }
  destruct Ha as [Ha1 Ha2].
  rewrite String.eqb_sym, Ha2, M, H2', F, Ha1, H2, O. auto.
Qed.

(** Creating the properties of a well-formed object one after the other,
    in the order it lists them, builds the same object. *)
Lemma build_wf {V} (l acc : obj V) :
  wf (acc ++ l)%list = true ->
  fold_left (fun o kv => set (fst kv) (snd kv) o) l acc = (acc ++ l)%list.
Proof.
  revert acc; induction l as [|[k v] l IH]; intros acc H; simpl.
  - now rewrite app_nil_r.
  - assert (E : (acc ++ (k, v) :: l = (acc ++ [(k, v)]) ++ l)%list)
      by now rewrite <- app_assoc.
    rewrite E in H |- *.
    assert (Hacc : wf (acc ++ [(k, v)])%list = true).
    { unfold wf, keys in *. rewrite map_app in H.
      clear -H. revert H.
      generalize (map fst (acc ++ [(k, v)])%list) as a.
      generalize (map fst l) as b. intros b a.
      induction a as [|x a IH]; simpl; intros H; [reflexivity|].
      apply andb_true_iff in H as [H H3]. apply andb_true_iff in H as [H1 H2].
      rewrite (IH H3), andb_true_r.
      rewrite forallb_app in H2. apply andb_true_iff in H2 as [H2 _].
      rewrite H2, andb_true_r.
      apply negb_true_iff, mem_false in H1. apply negb_true_iff, mem_false.
      intros I. apply H1, in_or_app. now left. }
    unfold wf, keys in Hacc. rewrite map_app in Hacc. simpl in Hacc.
    apply key_order_app_last in Hacc as (M & F & _).
    assert (S : set k v acc = (acc ++ [(k, v)])%list).
    { unfold set. assert (Hh : has k acc = false).
      { apply has_false, get_None_keys. now apply mem_false. }
      rewrite Hh. now apply insert_new_last. }
    rewrite S. now apply IH.
Qed.

End ObjFacts.

(* ================================================================== *)
(** * File name normalization *)
(* ================================================================== *)

Lemma addSrcPrefix_cases (f : string) :
  ((reserved f = true \/ Str.startsWith f "src/" = true) /\
   addSrcPrefix f = f) \/
  (reserved f = false /\ Str.startsWith f "src/" = false /\
   addSrcPrefix f = "src/" ++ f).
Proof.
  unfold addSrcPrefix, reserved.
  destruct (f =? importMapFile), (f =? tsconfigFile), (f =? viteConfigFile),
    (f =? tsMacroConfigFile), (Str.startsWith f "src/"); simpl; auto.
Qed.

Lemma startsWith_src (s : string) : Str.startsWith ("src/" ++ s) "src/" = true.
Proof. apply StrFacts.prefix_app. Qed.

Lemma addSrcPrefix_prefixed (s : string) :
  Str.startsWith s "src/" = true -> addSrcPrefix s = s.
Proof.
  intros H. unfold addSrcPrefix. rewrite H. now rewrite !orb_true_r.
Qed.

Lemma stripSrcPrefix_src (s : string) : stripSrcPrefix ("src/" ++ s) = s.
Proof. unfold stripSrcPrefix. now rewrite startsWith_src. Qed.

Lemma stripSrcPrefix_other (f : string) :
  Str.startsWith f "src/" = false -> stripSrcPrefix f = f.
Proof. unfold stripSrcPrefix. now intros ->. Qed.

Lemma reserved_not_prefixed (f : string) :
  reserved f = true -> Str.startsWith f "src/" = false.
Proof.
  unfold reserved. intros H.
  repeat (apply orb_true_iff in H as [H|H]);
    apply String.eqb_eq in H; subst f; reflexivity.
Qed.

(** C10: [addSrcPrefix] is idempotent; it is the identity exactly on the four
    reserved file names and on the names that already start with [src/];
    [stripSrcPrefix] removes one leading [src/] and nothing else, so that
    stripping after prefixing is the same as stripping. *)
Theorem addSrcPrefix_idempotent (f : string) :
  addSrcPrefix (addSrcPrefix f) = addSrcPrefix f /\
  (addSrcPrefix f = f <->
   reserved f = true \/ Str.startsWith f "src/" = true) /\
  (forall s, stripSrcPrefix ("src/" ++ s) = s) /\
  (Str.startsWith f "src/" = false -> stripSrcPrefix f = f) /\
  stripSrcPrefix (addSrcPrefix f) = stripSrcPrefix f.
Proof.
  destruct (addSrcPrefix_cases f) as [[H E] | (R & P & E)].
  - repeat split.
    + now rewrite E.
    + intros _. exact H.
    + intros _. exact E.
    + apply stripSrcPrefix_src.
    + apply stripSrcPrefix_other.
    + now rewrite E.
  - repeat split.
    + rewrite E. apply addSrcPrefix_prefixed, startsWith_src.
    + rewrite E. intros A. exfalso. revert A. now apply StrFacts.app_neq_self.
    + intros [A | A]; congruence.
    + apply stripSrcPrefix_src.
    + apply stripSrcPrefix_other.
    + rewrite E, stripSrcPrefix_src. symmetry. now apply stripSrcPrefix_other.
Qed.

(* ================================================================== *)
(** * Renaming, adding and deleting files *)
(* ================================================================== *)

(** ** Reading and writing the mapping under any name *)







Lemma assign_keyed p o k f :
  keyed p o k = true -> assign p o k f = Ok (set k f o, p).
Proof.
  unfold keyed, assign. destruct (has k o); [reflexivity|]. simpl.
  destruct p as [| |g]; [reflexivity| |].
  - intros H. apply negb_true_iff in H. now rewrite H.
  - intros H. apply andb_true_iff in H as [H1 H2].
    apply negb_true_iff in H1, H2. now rewrite H1, H2.
Qed.

Lemma assign_cases p o k f r :
  assign p o k f = r ->
  r = Ok (set k f o, p) \/
  (r = Ok (o, FilePrototype f) /\ k = "__proto__" /\ has k o = false /\
   p <> NoPrototype) \/
  (r = Throw TypeError /\ k = "language" /\ has k o = false /\
   exists g, p = FilePrototype g).
Proof.
  unfold assign. intros <-. destruct (has k o); [now left|].
  destruct p as [| |g]; [now left| |].
  - destruct (String.eqb_spec k "__proto__"); [|now left].
    right. left. repeat split; auto. discriminate.
  - destruct (String.eqb_spec k "__proto__").
    + right. left. repeat split; auto. discriminate.
    + destruct (String.eqb_spec k "language"); [|now left].
      right. right. repeat split; eauto.
Qed.




(** C6: [deleteFile(f)] removes [f] from the file mapping exactly when the
    prompt answers yes; the other files keep their places and contents, the
    active file name falls back to [mainFile] if it was [f], and nothing
    else changes.  When the prompt answers no, the store is unchanged. *)
Theorem deleteFile_prompt (confirm : string -> bool) (st : StoreState)
  (f : string) :
  (confirm (delete_prompt f) = true ->
   let st' := deleteFile confirm st f in
   get f (files st') = None /\
   (forall g, g <> f -> get g (files st') = get g (files st)) /\
   keys (files st') = filter (fun g => negb (g =? f)) (keys (files st)) /\
   activeFilename st' =
     (if activeFilename st =? f then mainFile st else activeFilename st) /\
   mainFile st' = mainFile st /\
   activeConfigFilename st' = activeConfigFilename st /\
   errors st' = errors st) /\
  (confirm (delete_prompt f) = false -> deleteFile confirm st f = st).
Proof.
  unfold deleteFile. split; intros C; rewrite C; simpl; [|reflexivity].
  assert (F : files (if activeFilename st =? f
                     then with_activeFilename st (mainFile st) else st)
              = files st) by (destruct (activeFilename st =? f); reflexivity).
  rewrite F. repeat split.
  - rewrite ObjFacts.get_delete, String.eqb_refl. reflexivity.
  - intros g N. rewrite ObjFacts.get_delete.
    apply String.eqb_neq in N. now rewrite N.
  - apply ObjFacts.keys_delete.
  - destruct (activeFilename st =? f); reflexivity.
  - destruct (activeFilename st =? f); reflexivity.
  - destruct (activeFilename st =? f); reflexivity.
  - destruct (activeFilename st =? f); reflexivity.
Qed.

Lemma with_filesProto_same (st : StoreState) :
  with_filesProto st (filesProto st) = st.
Proof. now destruct st. Qed.

(** What [addFile] does with a name the mapping takes as a key. *)
Lemma addFile_keyed (st : StoreState) (x : string + File) :
  let file :=
    match x with
    | inl name =>
        newFile name
          (if Str.endsWith name ".tsx" then new (template st) else "") false
    | inr f => f
    end in
  keyed (filesProto st) (files st) (filename file) = true ->
  addFile st x =
    (let st1 := with_files st (set (filename file) file (files st)) in
     if hidden file then st1 else setActive st1 (filename file), Normal).
Proof.
  cbv zeta. intros K. unfold addFile. rewrite (assign_keyed _ _ _ _ K).
  destruct st; unfold setActive; simpl.
  destruct (hidden _); [|destruct (reserved _)]; reflexivity.
Qed.

Lemma addFile_name_files (st : StoreState) (f : string) :
  keyed (filesProto st) (files st) f = true ->
  files (fst (addFile st (inl f))) =
  set f (newFile f (if Str.endsWith f ".tsx" then new (template st) else "")
           false) (files st).
Proof.
  intros K. rewrite (addFile_keyed st (inl f) K). unfold setActive. simpl.
  destruct (reserved f); reflexivity.
Qed.



(* ================================================================== *)
(** * The import map *)
(* ================================================================== *)

(** C7, not as stated: an import-map file with empty content does not hold
    valid JSON, yet [getImportMap] reads [{}] in its place and records
    nothing. *)
Lemma getImportMap_reports_fails :
  ~ getImportMap_reports Example.JSON_parse (store_with_import_map "").
Proof.
  intros H.
  specialize (H (newFile importMapFile "" false)
                "Unexpected token or end of JSON input" eq_refl eq_refl).
  vm_compute in H. discriminate.
Qed.

(** C7, amended: when the import-map file holds a non-empty content that is
    not valid JSON, [getImportMap] returns the empty map and replaces the
    error list by one diagnostic, which names the file and carries the parse
    error; when the file is absent or its content is empty, it returns the
    empty map and records nothing.  It cannot throw. *)
Theorem getImportMap_diagnostic (JSON_parse : string -> json + string)
  (st : StoreState) :
  JSON_parse "{}" = inl (JObj []) ->
  (forall f message,
     get importMapFile (files st) = Some f -> code f <> "" ->
     JSON_parse (code f) = inr message ->
     getImportMap JSON_parse st =
       (JObj [],
        with_errors st ["Syntax error in import-map.json: " ++ message])) /\
  (forall f,
     get importMapFile (files st) = Some f -> code f = "" ->
     getImportMap JSON_parse st = (JObj [], st)) /\
  (get importMapFile (files st) = None ->
   getImportMap JSON_parse st = (JObj [], st)).
Proof.
  intros E. unfold getImportMap. repeat split.
  - intros f message G N P. rewrite G.
    apply String.eqb_neq in N. rewrite N, P. reflexivity.
  - intros f G C. rewrite G, C. simpl. now rewrite E.
  - intros G. rewrite G. now rewrite E.
Qed.

Lemma getImportMap_diagnostic_witness :
  (forall f message,
     get importMapFile (files (store_with_import_map "{")) = Some f ->
     code f <> "" ->
     Example.JSON_parse (code f) = inr message ->
     getImportMap Example.JSON_parse (store_with_import_map "{") =
       (JObj [],
        with_errors (store_with_import_map "{")
          ["Syntax error in import-map.json: " ++ message])) /\
  (forall f,
     get importMapFile (files (store_with_import_map "{")) = Some f ->
     code f = "" ->
     getImportMap Example.JSON_parse (store_with_import_map "{") =
       (JObj [], store_with_import_map "{")) /\
  (get importMapFile (files (store_with_import_map "{")) = None ->
   getImportMap Example.JSON_parse (store_with_import_map "{") =
     (JObj [], store_with_import_map "{")).
Proof.
  apply (@getImportMap_diagnostic Example.JSON_parse
           (store_with_import_map "{")).
  reflexivity.
Defined.

Lemma fix_entries_typed (o : list (string * json)) :
  forallb (fun kv => match snd kv with JStr _ => true | _ => false end) o
    = true ->
  fix_entries o =
    (List.map (fun kv => (fst kv, match snd kv with
                                  | JStr url => JStr (fixURL url)
                                  | v => v
                                  end)) o, Normal).
Proof.
  induction o as [|[k v] o IH]; intros H; [reflexivity|].
  simpl in H. apply andb_true_iff in H as [H1 H2].
  destruct v; try discriminate.
  cbn [fix_entries Js.truthy List.map fst snd]. rewrite (IH H2).
  destruct (String.eqb_spec s "") as [->|N]; reflexivity.
Qed.

Lemma fix_imports_typed (map : json) :
  is_import_map map = true -> fix_imports map = (fixed_urls map, Normal).
Proof.
  destruct map as [| | | | |m]; try discriminate. simpl.
  destruct (get "imports" m) as [[| | | | |o]|]; try discriminate;
    [|reflexivity].
  intros H. now rewrite (fix_entries_typed _ H).
Qed.

(** C9, not as stated: a URL under [scopes] that matches the public host
    is written to the import-map file as it is. *)
Lemma setImportMap_rewrites_all_fails :
  is_import_map example_scoped_import_map = true /\
  ~ setImportMap_rewrites_all Example.JSON_stringify example_refs
      example_scoped_import_map.
Proof.
  split; [reflexivity|]. intros (_ & U & _). vm_compute in U. discriminate.
Qed.

(** C9, amended: for every import map [map], [setImportMap(map)] returns
    normally; every value of its [imports] table has gone through [fixURL],
    which replaces the first occurrence of [https://sfc.vuejs] by
    [https://play.vuejs] and leaves a URL without it alone, and every other
    property of the map ([scopes] among them) is as it was; the
    pretty-printed JSON of the resulting map is the content of the
    import-map file, which is created (not hidden) when absent and keeps its
    other fields when present; no other file changes. *)
Theorem setImportMap_writes_file (JSON_stringify : nat -> json -> string)
  (st : StoreState) (map : json) :
  is_import_map map = true ->
  let '(map', st', c) := setImportMap JSON_stringify st map in
  c = Normal /\ map' = fixed_urls map /\
  (forall name, name <> "imports" ->
                Js.field map' name = Js.field map name) /\
  (match get importMapFile (files st) with
   | Some f =>
       get importMapFile (files st') =
         Some (with_code f (JSON_stringify 2 (fixed_urls map))) /\
       keys (files st') = keys (files st)
   | None =>
       get importMapFile (files st') =
         Some (newFile importMapFile (JSON_stringify 2 (fixed_urls map)) false)
   end) /\
  (forall g, g <> importMapFile -> get g (files st') = get g (files st)) /\
  (forall url, Str.occurs "https://sfc.vuejs" url = false -> fixURL url = url) /\
  (forall url, Str.occurs "https://sfc.vuejs" url = true ->
     exists a b, url = a ++ "https://sfc.vuejs" ++ b /\
                 fixURL url = a ++ "https://play.vuejs" ++ b /\
                 forall a' b', url = a' ++ "https://sfc.vuejs" ++ b' ->
                               (String.length a <= String.length a')%nat).
Proof.
  intros T. unfold setImportMap. rewrite (fix_imports_typed _ T).
  split; [reflexivity|]. split; [reflexivity|].
  split; [|split; [|split; [|split]]].
  - intros name N. destruct map as [| | | | |m]; try reflexivity.
    simpl. destruct (get "imports" m) as [[| | | | |o]|]; try reflexivity.
    simpl. rewrite ObjFacts.get_replace_val.
    apply String.eqb_neq in N. now rewrite N.
  - destruct (get importMapFile (files st)) as [f|] eqn:G; simpl.
    + split.
      * rewrite ObjFacts.get_replace_val, String.eqb_refl.
        unfold has. now rewrite G.
      * apply ObjFacts.keys_replace_val.
    + rewrite ObjFacts.get_set, String.eqb_refl. reflexivity.
  - intros g N. apply String.eqb_neq in N.
    destruct (get importMapFile (files st)) as [f|] eqn:G; simpl.
    + rewrite ObjFacts.get_replace_val, N. reflexivity.
    + rewrite ObjFacts.get_set, N. reflexivity.
  - intros url. apply StrFacts.replace_first_absent.
  - intros url. apply StrFacts.replace_first_present.
Qed.

Lemma setImportMap_writes_file_witness :
  let '(map', st', c) :=
    setImportMap Example.JSON_stringify example_refs example_import_map in
  c = Normal /\ map' = fixed_urls example_import_map /\
  (forall name, name <> "imports" ->
                Js.field map' name = Js.field example_import_map name) /\
  (match get importMapFile (files example_refs) with
   | Some f =>
       get importMapFile (files st') =
         Some (with_code f
                 (Example.JSON_stringify 2 (fixed_urls example_import_map))) /\
       keys (files st') = keys (files example_refs)
   | None =>
       get importMapFile (files st') =
         Some (newFile importMapFile
                 (Example.JSON_stringify 2 (fixed_urls example_import_map))
                 false)
   end) /\
  (forall g, g <> importMapFile ->
             get g (files st') = get g (files example_refs)) /\
  (forall url, Str.occurs "https://sfc.vuejs" url = false -> fixURL url = url) /\
  (forall url, Str.occurs "https://sfc.vuejs" url = true ->
     exists a b, url = a ++ "https://sfc.vuejs" ++ b /\
                 fixURL url = a ++ "https://play.vuejs" ++ b /\
                 forall a' b', url = a' ++ "https://sfc.vuejs" ++ b' ->
                               (String.length a <= String.length a')%nat).
Proof.
  apply (@setImportMap_writes_file Example.JSON_stringify example_refs
           example_import_map).
  reflexivity.
Defined.

(** The example import map after [setImportMap]: the public host has become
    the mirror. *)
Example fixed_urls_example :
  fixed_urls example_import_map =
  JObj [("imports", JObj [("vue", JStr "https://play.vuejs.org/vue.js")])].
Proof. reflexivity. Qed.

(* ================================================================== *)
(** * Renaming keeps the order *)
(* ================================================================== *)













(* ================================================================== *)
(** * The main file *)
(* ================================================================== *)

Lemma extends_refl st : extends st st.
Proof. split; auto. Qed.

Lemma extends_trans a b c : extends a b -> extends b c -> extends a c.
Proof. intros [M1 K1] [M2 K2]. split; [congruence | auto]. Qed.


Lemma has_set {V} k k' (v : V) o :
  has k (set k' v o) = (k =? k') || has k o.
Proof.
  unfold has at 1. rewrite ObjFacts.get_set. unfold has.
  destruct (k =? k'); reflexivity.
Qed.

Lemma has_replace_val {V} k k' (v : V) o :
  has k (replace_val k' v o) = has k o.
Proof.
  destruct (has k o) eqn:H.
  - apply ObjFacts.has_keys. rewrite ObjFacts.keys_replace_val.
    now apply ObjFacts.has_keys.
  - apply ObjFacts.has_false, ObjFacts.get_None_keys.
    rewrite ObjFacts.keys_replace_val.
    now apply ObjFacts.get_None_keys, ObjFacts.has_false.
Qed.

Lemma has_setFile k fs filename content hidden :
  has k (setFile fs filename content hidden) =
  (k =? addSrcPrefix filename) || has k fs.
Proof. unfold setFile. apply has_set. Qed.

Lemma extends_files st fs :
  (forall k, has k (files st) = true -> has k fs = true) ->
  extends st (with_files st fs).
Proof. intros H. split; [reflexivity | exact H]. Qed.

Lemma extends_setDefaultFile st : extends st (setDefaultFile st).
Proof.
  unfold setDefaultFile. apply extends_files. intros k H.
  rewrite !has_setFile, H. now rewrite !orb_true_r.
Qed.

Lemma extends_restore saved st : extends st (fst (restore saved st)).
Proof.
  revert st. induction saved as [|[filename value] rest IH]; intros st; simpl.
  - apply extends_refl.
  - destruct (filename =? "_version").
    + destruct value; simpl; try apply extends_refl;
        (eapply extends_trans; [|apply IH]); split; auto.
    + destruct (Js.field value "code") as [c| |];
        destruct (Js.field value "hidden") as [h| |];
        simpl; try apply extends_refl.
      destruct c as [[]|]; simpl; try apply extends_refl;
        destruct h as [[]|]; simpl; try apply extends_refl;
        (eapply extends_trans; [|apply IH]); apply extends_files;
        intros k H; rewrite has_setFile, H; apply orb_true_r.
Qed.









Section MainFile.

Variable JSON_parse : string -> json + string.
Variable JSON_stringify : nat -> json -> string.
Variable atou : string -> string + exn.
Variable mergeImportMap : json -> json -> result json.
Variable compileFile : StoreState -> File -> Compiled * list string.
Variable getViteConfig : StoreState -> option exn.

Lemma extends_deserialize st s :
  extends st (fst (fst (deserialize JSON_parse atou st s))).
Proof.
  unfold deserialize. destruct (atou _) as [text|err]; simpl.
  - destruct (JSON_parse text) as [saved|message]; simpl.
    + pose proof (extends_restore (Js.own_entries saved) st) as E.
      destruct (restore (Js.own_entries saved) st). exact E.
    + apply extends_setDefaultFile.
  - apply extends_setDefaultFile.
Qed.

Lemma extends_getImportMap st :
  extends st (snd (getImportMap JSON_parse st)).
Proof.
  unfold getImportMap. destruct (JSON_parse _); simpl.
  - apply extends_refl.
  - split; auto.
Qed.

Lemma extends_setImportMap st map :
  extends st (snd (fst (setImportMap JSON_stringify st map))).
Proof.
  unfold setImportMap. destruct (fix_imports map) as [map' []]; simpl;
    try apply extends_refl.
  apply extends_files. intros k H.
  destruct (get importMapFile (files st)).
  - now rewrite has_replace_val.
  - rewrite has_set, H. apply orb_true_r.
Qed.

Lemma extends_applyBuiltinImportMap st :
  extends st
    (fst (applyBuiltinImportMap JSON_parse JSON_stringify mergeImportMap st)).
Proof.
  unfold applyBuiltinImportMap.
  pose proof (extends_getImportMap st) as E1.
  destruct (getImportMap JSON_parse st) as [user st1]. simpl in E1.
  destruct (mergeImportMap _ user) as [merged| |]; simpl; try exact E1.
  pose proof (extends_setImportMap (with_importMap st1 merged) merged) as E2.
  destruct (setImportMap JSON_stringify _ merged) as [[map' st2] c].
  simpl in *. eapply extends_trans; [exact E1|].
  destruct E2 as [M K]. split; [exact M | exact K].
Qed.

Lemma has_compile_all st fs k :
  has k (fst (compile_all compileFile st fs)) = has k fs.
Proof.
  unfold compile_all, has. simpl.
  induction fs as [|[k' f] fs IH]; simpl; [reflexivity|].
  destruct (k =? k'); [reflexivity | exact IH].
Qed.

Lemma has_fold_setFile (l : list (string * string)) fs k :
  has k fs = true ->
  has k (fold_left (fun fs '(filename, file) => setFile fs filename file false)
           l fs) = true.
Proof.
  revert fs. induction l as [|[n c] l IH]; intros fs H; simpl; [exact H|].
  apply IH. rewrite has_setFile, H. apply orb_true_r.
Qed.

Lemma has_fold_setFile_key (l : list (string * string)) fs n c :
  In (n, c) l ->
  has (addSrcPrefix n)
    (fold_left (fun fs '(filename, file) => setFile fs filename file false)
       l fs) = true.
Proof.
  revert fs. induction l as [|[n' c'] l IH]; intros fs I; simpl; [destruct I|].
  destruct I as [E | I].
  - injection E as -> ->. apply has_fold_setFile.
    rewrite has_setFile, String.eqb_refl. reflexivity.
  - now apply IH.
Qed.

Lemma get_In {V} k (v : V) o : get k o = Some v -> In (k, v) o.
Proof.
  induction o as [|[k' v'] o IH]; simpl; [discriminate|].
  destruct (String.eqb_spec k k') as [->|]; intros H.
  - injection H as ->. now left.
  - right. auto.
Qed.

Lemma addSrcPrefix_twice f : addSrcPrefix (addSrcPrefix f) = addSrcPrefix f.
Proof.
  destruct (addSrcPrefix_cases f) as [[_ E] | (_ & _ & E)]; rewrite E.
  - exact E.
  - apply addSrcPrefix_prefixed, startsWith_src.
Qed.


Lemma In_keys_fold_rename o n (l : list (string * File)) acc k :
  In k (keys (fold_left
                (fun newFiles '(name, file) =>
                   if name =? o then set n file newFiles
                   else set name file newFiles) l acc)) <->
  In k (keys acc) \/ In k (List.map (renamed_key o n) (keys l)).
Proof.
  revert acc. induction l as [|[name f] l IH]; intros acc; simpl.
  - tauto.
  - rewrite IH. unfold renamed_key at 2.
    destruct (name =? o); rewrite ObjFacts.In_keys_set; intuition.
Qed.

(** The store [init] leaves, whatever its completion. *)
Lemma init_state (st : StoreState) :
  let st' := fst (fst (init JSON_stringify getViteConfig st)) in
  files st' =
    (if has tsconfigFile (files st) then files st
     else set tsconfigFile
            (newFile tsconfigFile (JSON_stringify 2 tsconfig) false)
            (files st)) /\
  filesProto st' = filesProto st /\ mainFile st' = mainFile st /\
  activeFilename st' = activeFilename st /\
  activeConfigFilename st' = activeConfigFilename st.
Proof.
  cbv zeta. unfold init.
  set (st1 := if has tsconfigFile (files st) then st else _).
  assert (A : files st1 =
                (if has tsconfigFile (files st) then files st
                 else set tsconfigFile
                        (newFile tsconfigFile (JSON_stringify 2 tsconfig)
                           false) (files st)) /\
              filesProto st1 = filesProto st /\ mainFile st1 = mainFile st /\
              activeFilename st1 = activeFilename st /\
              activeConfigFilename st1 = activeConfigFilename st).
  { subst st1. destruct (has tsconfigFile (files st)); simpl; auto. }
  destruct (getViteConfig st1); [exact A|].
  destruct (lookup (filesProto st1) (files st1) (activeFilename st1));
    destruct (lookup (filesProto st1) (files st1) (activeConfigFilename st1));
    exact A.
Qed.



End MainFile.




(* ================================================================== *)
(** * Serialization *)
(* ================================================================== *)

Lemma fold_left_set_map {A V} (key : A -> string) (val : A -> V)
  (l : list A) (acc : obj V) :
  fold_left (fun o a => set (key a) (val a) o) l acc =
  fold_left (fun o kv => set (fst kv) (snd kv) o)
    (List.map (fun a => (key a, val a)) l) acc.
Proof.
  revert acc. induction l as [|a l IH]; intros acc; simpl; [reflexivity|].
  apply IH.
Qed.

Lemma keys_map_entries {A V} (key : A -> string) (val : A -> V) (l : list A) :
  keys (List.map (fun a => (key a, val a)) l) = List.map key l.
Proof. unfold keys. rewrite map_map. reflexivity. Qed.

Lemma strip_importMapFile (k : string) :
  addSrcPrefix (stripSrcPrefix k) = k ->
  (stripSrcPrefix k =? importMapFile) = (k =? importMapFile).
Proof.
  intros N. destruct (String.eqb_spec k importMapFile) as [->|Nk].
  - reflexivity.
  - apply String.eqb_neq. intros E. rewrite E in N. now symmetry in N.
Qed.

Lemma get_map_renamed {A B} (key : string -> string) (val : string * A -> B)
  (x x' : string) (l : obj A) :
  (forall k, In k (keys l) -> (x =? key k) = (x' =? k)) ->
  get x (List.map (fun kv => (key (fst kv), val kv)) l) =
  match get x' l with
  | Some v => Some (val (x', v))
  | None => None
  end.
Proof.
  induction l as [|[k v] l IH]; simpl; intros H; [reflexivity|].
  rewrite (H k) by now left.
  destruct (String.eqb_spec x' k) as [->|]; [reflexivity|].
  apply IH. intros; apply H. now right.
Qed.

Lemma map_delete_renamed {A B} (key : string -> string)
  (val : string * A -> B) (x x' : string) (l : obj A) :
  (forall k, In k (keys l) -> (x =? key k) = (x' =? k)) ->
  delete x (List.map (fun kv => (key (fst kv), val kv)) l) =
  List.map (fun kv => (key (fst kv), val kv)) (delete x' l).
Proof.
  induction l as [|[k v] l IH]; simpl; intros H; [reflexivity|].
  rewrite (H k) by now left.
  destruct (x' =? k); simpl; rewrite IH; auto.
Qed.

Lemma map_replace_val_renamed {A B} (key : string -> string)
  (val : string * A -> B) (x x' : string) (w : A) (l : obj A) :
  (forall k, In k (keys l) -> (x =? key k) = (x' =? k)) ->
  (forall k, val (k, w) = val (x', w)) ->
  replace_val x (val (x', w)) (List.map (fun kv => (key (fst kv), val kv)) l) =
  List.map (fun kv => (key (fst kv), val kv)) (replace_val x' w l).
Proof.
  induction l as [|[k v] l IH]; simpl; intros H Hv; [reflexivity|].
  rewrite (H k) by now left.
  destruct (x' =? k); simpl.
  - now rewrite (Hv k).
  - rewrite IH; auto.
Qed.

Lemma key_order_delete (x : string) (l : list string) :
  key_order l = true -> key_order (filter (fun g => negb (g =? x)) l) = true.
Proof.
  induction l as [|k l IH]; simpl; intros H; [reflexivity|].
  apply andb_true_iff in H as [H H3]. apply andb_true_iff in H as [H1 H2].
  destruct (negb (k =? x)); simpl; [|auto].
  rewrite IH by assumption. rewrite andb_true_r.
  apply andb_true_iff. split.
  - apply negb_true_iff, ObjFacts.mem_false.
    apply negb_true_iff, ObjFacts.mem_false in H1.
    intros I. apply filter_In in I. tauto.
  - clear -H2. induction l as [|a l IHl]; simpl in *; [reflexivity|].
    apply andb_true_iff in H2 as [A B].
    destruct (negb (a =? x)); simpl; [rewrite A|]; auto.
Qed.

(** A mapping whose stripped names are distinct is exported entry by entry,
    but for a file whose stripped name is [__proto__]. *)
Lemma getFiles_delete (st : StoreState) :
  key_order (List.map stripSrcPrefix (keys (files st))) = true ->
  getFiles st =
  delete "__proto__"
    (List.map
       (fun kv =>
          (stripSrcPrefix (fst kv),
           {| Exported.code := code (snd kv);
              Exported.hidden := Some (hidden (snd kv)) |})) (files st)).
Proof.
  intros K. unfold getFiles, entries.
  transitivity
    (fold_left
       (fun o (kv : string * Exported.t) => set (fst kv) (snd kv) o)
       (delete "__proto__"
          (List.map
             (fun kv : string * File =>
                (stripSrcPrefix (fst kv),
                 {| Exported.code := code (snd kv);
                    Exported.hidden := Some (hidden (snd kv)) |}))
             (files st))) []).
  - clear K. generalize (@nil (string * Exported.t)).
    induction (files st) as [|[k f] l IH]; intros acc;
      cbn [fold_left List.map delete fst snd]; [reflexivity|].
    rewrite (String.eqb_sym "__proto__").
    destruct (stripSrcPrefix k =? "__proto__");
      cbn [fold_left fst snd]; apply IH.
  - apply ObjFacts.build_wf. cbn [app]. unfold wf.
    rewrite ObjFacts.keys_delete. apply key_order_delete.
    rewrite keys_map_entries. unfold keys in K. now rewrite map_map in K.
Qed.

(** A well-named mapping without such a file is exported entry by entry. *)
Lemma getFiles_map (st : StoreState) :
  key_order (List.map stripSrcPrefix (keys (files st))) = true ->
  ~ In "__proto__" (List.map stripSrcPrefix (keys (files st))) ->
  getFiles st =
  List.map
    (fun kv =>
       (stripSrcPrefix (fst kv),
        {| Exported.code := code (snd kv);
           Exported.hidden := Some (hidden (snd kv)) |})) (files st).
Proof.
  intros K P. rewrite (getFiles_delete st K). apply ObjFacts.delete_absent.
  apply ObjFacts.get_None_keys. rewrite keys_map_entries.
  unfold keys in P. now rewrite map_map in P.
Qed.

Lemma insert_new_plain {V} (k : string) (v : V) (o : obj V) :
  array_index k = None -> insert_new k v o = (o ++ [(k, v)])%list.
Proof.
  intros H. apply ObjFacts.insert_new_last.
  induction (keys o) as [|a l IH]; simpl; [reflexivity|].
  unfold precedes at 1. now rewrite H.
Qed.

Lemma restore_app (a b : list (string * json)) (st : StoreState) :
  snd (restore a st) = Normal ->
  restore (a ++ b)%list st = restore b (fst (restore a st)).
Proof.
  revert st. induction a as [|[filename value] a IH]; intros st; simpl;
    [reflexivity|].
  destruct (filename =? "_version").
  - destruct value; simpl; try discriminate; apply IH.
  - destruct (Js.field value "code") as [c| |];
      destruct (Js.field value "hidden") as [h| |]; simpl; try discriminate.
    destruct c as [[]|]; simpl; try discriminate;
      destruct h as [[]|]; simpl; try discriminate; apply IH.
Qed.

(** [deserialize] turns the exported entries back into files, one
    [setFile] each. *)
Lemma restore_exported (l : obj Exported.t) (st : StoreState) :
  ~ In "_version" (keys l) ->
  restore (List.map (fun kv => (fst kv, Exported.to_json (snd kv))) l) st =
  (with_files st
     (fold_left
        (fun fs kv =>
           setFile fs (fst kv) (Exported.code (snd kv))
             (hidden_or_false (snd kv))) l (files st)),
   Normal).
Proof.
  revert st. induction l as [|[k e] l IH]; intros st N.
  - destruct st; reflexivity.
  - simpl in N. cbn [List.map restore fst snd].
    destruct (String.eqb_spec k "_version") as [->|_]; [tauto|].
    unfold Exported.to_json at 1.
    destruct e as [c [h|]]; cbn; rewrite IH by tauto; reflexivity.
Qed.

Lemma strip_keys_importMapFile (fs : obj File) :
  (forall k, In k (keys fs) -> addSrcPrefix (stripSrcPrefix k) = k) ->
  forall k, In k (keys fs) ->
            (importMapFile =? stripSrcPrefix k) = (importMapFile =? k).
Proof.
  intros N k I. rewrite (String.eqb_sym _ (stripSrcPrefix k)).
  rewrite (String.eqb_sym _ k). apply strip_importMapFile. auto.
Qed.

Lemma add_version (payload : obj json) (st : StoreState) :
  ~ In "_version" (keys payload) ->
  match vueVersion st with
  | Some v => if v =? "" then payload else set "_version" (JStr v) payload
  | None => payload
  end = (payload ++ version_entry st)%list.
Proof.
  intros N. unfold version_entry, selected_version.
  destruct (vueVersion st) as [v|]; [|now rewrite app_nil_r].
  destruct (v =? ""); [now rewrite app_nil_r|].
  unfold set. assert (H : has "_version" payload = false)
    by now apply ObjFacts.has_false, ObjFacts.get_None_keys.
  rewrite H. now apply insert_new_plain.
Qed.

Lemma keys_exported_files (c : option string) (fs : obj File) (k : string) :
  In k (keys (exported_files c fs)) ->
  In k (List.map stripSrcPrefix (keys fs)).
Proof.
  unfold exported_files. intros I.
  assert (K : In k (keys (List.map
                            (fun kv : string * File =>
                               (stripSrcPrefix (fst kv),
                                {| Exported.code := code (snd kv);
                                   Exported.hidden := Some (hidden (snd kv)) |}))
                            fs))).
  { destruct c.
    - now rewrite ObjFacts.keys_replace_val in I.
    - rewrite ObjFacts.keys_delete in I. apply filter_In in I. tauto. }
  rewrite keys_map_entries in K. unfold keys. now rewrite map_map.
Qed.

(** The entry [getFiles] exports for the import-map file of a well-named
    mapping. *)
Lemma get_importMap_getFiles (st : StoreState) :
  well_named (files st) ->
  get importMapFile (getFiles st) =
  match get importMapFile (files st) with
  | Some f => Some {| Exported.code := code f;
                      Exported.hidden := Some (hidden f) |}
  | None => None
  end.
Proof.
  intros (W & N & K & V). rewrite (getFiles_delete st K).
  rewrite ObjFacts.get_delete.
  change (importMapFile =? "__proto__") with false. cbv iota.
  apply (get_map_renamed stripSrcPrefix
           (fun kv : string * File =>
              {| Exported.code := code (snd kv);
                 Exported.hidden := Some (hidden (snd kv)) |})).
  now apply strip_keys_importMapFile.
Qed.

Section Serialization.

Variable JSON_parse : string -> json + string.
Variable JSON_stringify : nat -> json -> string.
Variable utoa : string -> string.
Variable atou : string -> string + exn.

(** What a well-named store serializes. *)
Lemma serialize_payload_eq (st : StoreState) (c : option string) :
  well_named (files st) ->
  ~ In "__proto__" (List.map stripSrcPrefix (keys (files st))) ->
  exported_import_map JSON_parse JSON_stringify st = Ok c ->
  serialize_payload JSON_parse JSON_stringify st = Ok (payload_of c st).
Proof.
  intros (W & N & K & V) P X. unfold serialize_payload. cbv zeta.
  rewrite (getFiles_map st K P).
  set (E := List.map _ (files st)).
  assert (G : get importMapFile E =
              match get importMapFile (files st) with
              | Some f => Some {| Exported.code := code f;
                                  Exported.hidden := Some (hidden f) |}
              | None => None
              end).
  { subst E.
    apply (get_map_renamed stripSrcPrefix
             (fun kv : string * File =>
                {| Exported.code := code (snd kv);
                   Exported.hidden := Some (hidden (snd kv)) |})).
    now apply strip_keys_importMapFile. }
  match goal with
  | |- bind_result ?m _ = _ =>
      assert (F : m = Ok (exported_files c (files st)))
  end.
  { rewrite G. unfold exported_import_map in X. unfold exported_files.
    fold E. destruct (get importMapFile (files st)) as [f|] eqn:Gf.
    - simpl. destruct (JSON_parse (code f)) as [parsed|m]; [|discriminate].
      destruct (builtin_imports (builtinImportMap st)) as [b| |];
        try discriminate. simpl in *.
      destruct (prune b parsed) as [parsed'| |]; try discriminate.
      simpl in *. injection X as <-.
      destruct (Js.keys_length parsed' =? 0)%nat; [reflexivity|].
      unfold set. unfold has. rewrite G. reflexivity.
    - injection X as <-. rewrite ObjFacts.delete_absent; auto. }
  rewrite F. simpl. unfold payload_of. apply f_equal. apply add_version.
  intros I. apply V. apply (keys_exported_files c).
  unfold keys in *. now rewrite map_map in I.
Qed.

Lemma deserialize_text (tgt : StoreState) (text : string) (saved : json) :
  atou (utoa text) = inl text -> JSON_parse text = inl saved ->
  deserialize JSON_parse atou tgt ("#" ++ utoa text) =
  (fst (restore (Js.own_entries saved) tgt), [],
   snd (restore (Js.own_entries saved) tgt)).
Proof.
  intros A P. unfold deserialize.
  assert (S : Str.startsWith ("#" ++ utoa text) "#" = true)
    by apply StrFacts.prefix_app.
  rewrite S. change (Str.drop 1 ("#" ++ utoa text)) with (utoa text).
  rewrite A, P. now destruct (restore (Js.own_entries saved) tgt).
Qed.

End Serialization.

Lemma rebuilt_plain (fs : obj File) :
  (forall k, In k (keys fs) -> addSrcPrefix (stripSrcPrefix k) = k) ->
  List.map
    (fun a : string * Exported.t =>
       (addSrcPrefix (fst a),
        newFile (addSrcPrefix (fst a)) (Exported.code (snd a))
          (hidden_or_false (snd a))))
    (List.map
       (fun kv : string * File =>
          (stripSrcPrefix (fst kv),
           {| Exported.code := code (snd kv);
              Exported.hidden := Some (hidden (snd kv)) |})) fs) =
  List.map
    (fun kv => (fst kv, newFile (fst kv) (code (snd kv)) (hidden (snd kv)))) fs.
Proof.
  intros N. rewrite map_map. apply map_ext_in. intros [k f] I. simpl.
  rewrite N; [reflexivity|]. apply in_map_iff. now exists (k, f).
Qed.

(** The files [deserialize] sets, one per exported entry, are the rebuilt
    files. *)
Lemma rebuilt_eq (c : option string) (fs : obj File) :
  (forall k, In k (keys fs) -> addSrcPrefix (stripSrcPrefix k) = k) ->
  List.map
    (fun a : string * Exported.t =>
       (addSrcPrefix (fst a),
        newFile (addSrcPrefix (fst a)) (Exported.code (snd a))
          (hidden_or_false (snd a))))
    (exported_files c fs) = rebuilt c fs.
Proof.
  unfold exported_files, rebuilt. destruct c as [content|].
  - induction fs as [|[k f] l IH]; intros N; [reflexivity|].
    cbn [List.map replace_val fst snd].
    rewrite (strip_keys_importMapFile _ N k) by now left.
    assert (Nk : addSrcPrefix (stripSrcPrefix k) = k) by (apply N; now left).
    assert (Nl : forall k', In k' (keys l) ->
                            addSrcPrefix (stripSrcPrefix k') = k')
      by (intros; apply N; now right).
    destruct (String.eqb_spec importMapFile k) as [<-|Ne];
      cbn [List.map fst snd].
    + f_equal. now apply rebuilt_plain.
    + rewrite Nk. f_equal. now apply IH.
  - induction fs as [|[k f] l IH]; intros N; [reflexivity|].
    cbn [List.map delete fst snd].
    rewrite (strip_keys_importMapFile _ N k) by now left.
    assert (Nk : addSrcPrefix (stripSrcPrefix k) = k) by (apply N; now left).
    assert (Nl : forall k', In k' (keys l) ->
                            addSrcPrefix (stripSrcPrefix k') = k')
      by (intros; apply N; now right).
    destruct (String.eqb_spec importMapFile k) as [<-|Ne];
      cbn [List.map fst snd].
    + now apply IH.
    + rewrite Nk. f_equal. now apply IH.
Qed.

Lemma keys_rebuilt (c : option string) (fs : obj File) :
  keys (rebuilt c fs) =
  match c with
  | Some _ => keys fs
  | None => filter (fun g => negb (g =? importMapFile)) (keys fs)
  end.
Proof.
  unfold rebuilt. destruct c.
  - rewrite ObjFacts.keys_replace_val. apply keys_map_entries.
  - rewrite ObjFacts.keys_delete. now rewrite keys_map_entries.
Qed.

Lemma wf_rebuilt (c : option string) (fs : obj File) :
  wf fs = true -> wf (rebuilt c fs) = true.
Proof.
  unfold wf. rewrite keys_rebuilt. destruct c; [auto|].
  apply key_order_delete.
Qed.

Lemma get_rebuilt (c : option string) (fs : obj File) (k : string) :
  k <> importMapFile ->
  get k (rebuilt c fs) =
  match get k fs with
  | Some f => Some (newFile k (code f) (hidden f))
  | None => None
  end.
Proof.
  intros N. apply String.eqb_neq in N. unfold rebuilt.
  assert (G : get k (List.map
                       (fun kv : string * File =>
                          (fst kv, newFile (fst kv) (code (snd kv))
                                     (hidden (snd kv)))) fs) =
              match get k fs with
              | Some f => Some (newFile k (code f) (hidden f))
              | None => None
              end).
  { clear N. induction fs as [|[k' f] l IH]; simpl; [reflexivity|].
    destruct (String.eqb_spec k k') as [->|]; [reflexivity | exact IH]. }
  destruct c.
  - now rewrite ObjFacts.get_replace_val, N.
  - now rewrite ObjFacts.get_delete, N.
Qed.

Lemma fold_setFile_exported (l : obj Exported.t) (acc : obj File) :
  fold_left
    (fun fs kv =>
       setFile fs (fst kv) (Exported.code (snd kv)) (hidden_or_false (snd kv)))
    l acc =
  fold_left (fun o kv => set (fst kv) (snd kv) o)
    (List.map
       (fun a : string * Exported.t =>
          (addSrcPrefix (fst a),
           newFile (addSrcPrefix (fst a)) (Exported.code (snd a))
             (hidden_or_false (snd a)))) l) acc.
Proof.
  revert acc. induction l as [|a l IH]; intros acc; simpl; [reflexivity|].
  apply IH.
Qed.

Lemma restore_version (st st1 : StoreState) :
  restore (version_entry st) st1 =
  (match selected_version st with
   | Some v => with_vueVersion st1 (Some v)
   | None => st1
   end, Normal).
Proof. unfold version_entry. destruct (selected_version st); reflexivity. Qed.

Section RoundTrip.

Variable JSON_parse : string -> json + string.
Variable JSON_stringify : nat -> json -> string.
Variable utoa : string -> string.
Variable atou : string -> string + exn.

(** What [deserialize] makes of the serialized payload in a store without
    files. *)
Lemma restore_payload (c : option string) (src tgt : StoreState) :
  well_named (files src) -> files tgt = [] ->
  restore (payload_of c src) tgt =
  (match selected_version src with
   | Some v => with_vueVersion (with_files tgt (rebuilt c (files src))) (Some v)
   | None => with_files tgt (rebuilt c (files src))
   end, Normal).
Proof.
  intros (W & N & K & V) T. unfold payload_of.
  assert (NV : ~ In "_version" (keys (exported_files c (files src)))).
  { intros I. apply V. now apply (keys_exported_files c). }
  pose proof (restore_exported (exported_files c (files src)) tgt NV) as R.
  rewrite restore_app by now rewrite R.
  rewrite R. cbn [fst]. rewrite restore_version.
  assert (F : fold_left
                (fun fs kv =>
                   setFile fs (fst kv) (Exported.code (snd kv))
                     (hidden_or_false (snd kv)))
                (exported_files c (files src)) (files tgt) =
              rebuilt c (files src)).
  { rewrite T, fold_setFile_exported, (rebuilt_eq c _ N).
    rewrite ObjFacts.build_wf; [reflexivity|]. simpl. now apply wf_rebuilt. }
  rewrite F. reflexivity.
Qed.

(** C1, amended: for a store whose file names are in the form
    [addSrcPrefix] gives (stripped names distinct, none an array index, none
    [_version], none [__proto__], which the exported object takes for its
    prototype) and whose import-map file, if present, holds JSON that
    [serialize] can prune, serializing and then deserializing into a store
    without files returns normally and rebuilds, in the same order, a new
    file for every file, with the same name, code and hidden flag; the
    import-map file comes back not hidden with the pretty-printed pruned
    content, or not at all when pruning left nothing; the version selection
    is restored when one is selected and left as the receiving store has it
    otherwise; the main file and the active names are not part of the
    serialized state and stay as the receiving store has them. *)
Theorem round_trip (src tgt : StoreState) (importMap : option string) :
  well_named (files src) ->
  ~ In "__proto__" (List.map stripSrcPrefix (keys (files src))) ->
  exported_import_map JSON_parse JSON_stringify src = Ok importMap ->
  JSON_parse (JSON_stringify 0 (JObj (payload_of importMap src))) =
    inl (JObj (payload_of importMap src)) ->
  atou (utoa (JSON_stringify 0 (JObj (payload_of importMap src)))) =
    inl (JSON_stringify 0 (JObj (payload_of importMap src))) ->
  files tgt = [] ->
  exists s st',
    serialize JSON_parse JSON_stringify utoa src = Ok s /\
    deserialize JSON_parse atou tgt s = (st', [], Normal) /\
    files st' = rebuilt importMap (files src) /\
    same_files src st' /\
    vueVersion st' =
      match selected_version src with
      | Some v => Some v
      | None => vueVersion tgt
      end /\
    mainFile st' = mainFile tgt /\
    activeFilename st' = activeFilename tgt /\
    activeConfigFilename st' = activeConfigFilename tgt.
Proof.
  intros WN NP X P A T.
  pose proof (serialize_payload_eq JSON_parse JSON_stringify src WN NP X) as S.
  pose proof (restore_payload importMap src tgt WN T) as R.
  exists ("#" ++ utoa (JSON_stringify 0 (JObj (payload_of importMap src)))).
  eexists. split; [|split].
  - unfold serialize. rewrite S. reflexivity.
  - rewrite (@deserialize_text JSON_parse utoa atou tgt _ _ A P).
    cbn [Js.own_entries]. rewrite R. cbn [fst snd]. reflexivity.
  - assert (F : files (match selected_version src with
                       | Some v =>
                           with_vueVersion
                             (with_files tgt (rebuilt importMap (files src)))
                             (Some v)
                       | None => with_files tgt (rebuilt importMap (files src))
                       end) = rebuilt importMap (files src))
      by (destruct (selected_version src); reflexivity).
    split; [exact F|]. split; [|split; [|split; [|split]]];
      try (destruct (selected_version src); reflexivity).
    unfold same_files. rewrite F. split.
    + intros k f G N. rewrite (get_rebuilt _ _ N), G. eexists.
      split; [reflexivity|]. split; reflexivity.
    + intros k N. unfold has. rewrite (get_rebuilt _ _ N).
      now destruct (get k (files src)).
Qed.

End RoundTrip.

(** C1, not as stated: the main file is not part of the serialized state (a
    store whose main file is [src/Main.tsx] comes back with [src/App.tsx],
    from [deserialize] and from [useStore] alike); a file added under a
    bare name comes back under [src/], whether the state is deserialized
    into a new store or into the store it came from; a file whose stripped
    name is [_version] is read back as the version marker; and a file whose
    stripped name is [__proto__] is not exported. *)
Lemma round_trip_restores_fails :
  ~ round_trip_restores Example.JSON_parse Example.JSON_stringify Example.utoa
      Example.atou example_refs store_with_other_main /\
  ~ (exists s st' effs,
       serialize Example.JSON_parse Example.JSON_stringify Example.utoa
         store_with_other_main = Ok s /\
       useStore Example.JSON_parse Example.JSON_stringify Example.atou
         Example.mergeImportMap example_refs None (Some s) =
         (st', effs, Normal) /\
       mainFile st' = mainFile store_with_other_main) /\
  ~ round_trip_restores Example.JSON_parse Example.JSON_stringify Example.utoa
      Example.atou example_refs store_with_bare_name /\
  ~ round_trip_restores Example.JSON_parse Example.JSON_stringify Example.utoa
      Example.atou store_with_bare_name store_with_bare_name /\
  ~ round_trip_restores Example.JSON_parse Example.JSON_stringify Example.utoa
      Example.atou example_refs store_with_version_file /\
  ~ round_trip_restores Example.JSON_parse Example.JSON_stringify Example.utoa
      Example.atou example_refs store_with_proto_file.
Proof.
  split; [|split; [|split; [|split; [|split]]]].
  - intros (s & st' & effs & S & D & _ & M & _).
    vm_compute in S. injection S as <-.
    vm_compute in D. injection D as <- _.
    vm_compute in M. discriminate.
  - intros (s & st' & effs & S & D & M).
    vm_compute in S. injection S as <-.
    vm_compute in D. injection D as <- _.
    vm_compute in M. discriminate.
  - intros (s & st' & effs & S & D & [_ F] & _).
    vm_compute in S. injection S as <-.
    vm_compute in D. injection D as <- _.
    assert (N : "util.ts" <> importMapFile) by discriminate.
    specialize (F "util.ts" N). vm_compute in F. discriminate.
  - intros (s & st' & effs & S & D & [_ F] & _).
    vm_compute in S. injection S as <-.
    vm_compute in D. injection D as <- _.
    assert (N : "src/util.ts" <> importMapFile) by discriminate.
    specialize (F "src/util.ts" N). vm_compute in F. discriminate.
  - intros (s & st' & effs & S & D & _).
    vm_compute in S. injection S as <-.
    vm_compute in D. discriminate.
  - intros (s & st' & effs & S & D & [_ F] & _).
    vm_compute in S. injection S as <-.
    vm_compute in D. injection D as <- _.
    assert (N : "src/__proto__" <> importMapFile) by discriminate.
    specialize (F "src/__proto__" N). vm_compute in F. discriminate.
Qed.

Lemma well_named_example : well_named (files store_with_version).
Proof.
  split; [reflexivity|]. split; [|split; [reflexivity|]].
  - intros k I. vm_compute in I.
    repeat (destruct I as [<- | I]; [reflexivity|]). destruct I.
  - intros I. vm_compute in I.
    repeat (destruct I as [E | I]; [discriminate|]). destruct I.
Qed.

Lemma round_trip_witness :
  exists s st',
    serialize Example.JSON_parse Example.JSON_stringify Example.utoa
      store_with_version = Ok s /\
    deserialize Example.JSON_parse Example.atou example_refs s =
      (st', [], Normal) /\
    files st' =
      rebuilt (Some example_exported_import_map) (files store_with_version) /\
    same_files store_with_version st' /\
    vueVersion st' =
      match selected_version store_with_version with
      | Some v => Some v
      | None => vueVersion example_refs
      end /\
    mainFile st' = mainFile example_refs /\
    activeFilename st' = activeFilename example_refs /\
    activeConfigFilename st' = activeConfigFilename example_refs.
Proof.
  apply (@round_trip Example.JSON_parse Example.JSON_stringify Example.utoa
           Example.atou store_with_version example_refs
           (Some example_exported_import_map)).
  - exact well_named_example.
  - intros I. vm_compute in I.
    repeat (destruct I as [E | I]; [discriminate|]). destruct I.
  - vm_compute. reflexivity.
  - vm_compute. reflexivity.
  - vm_compute. reflexivity.
  - reflexivity.
Defined.

(** C8, where [serialize] returns no string: after
    [addFile('import-map.json')] the import-map file is empty, and while it
    is being edited it may hold a text such as [{]; in both stores
    [serialize] throws the [SyntaxError] of [JSON.parse], while
    [getImportMap] reads [{}] for the empty content and catches the error
    of the malformed one. *)
Theorem serialize_throws_on_malformed_import_map :
  (serialize Example.JSON_parse Example.JSON_stringify Example.utoa
     (fst (addFile example_store (inl "import-map.json"))) =
     Throw (SyntaxError "Unexpected token or end of JSON input") /\
   getImportMap Example.JSON_parse
     (fst (addFile example_store (inl "import-map.json"))) =
     (JObj [], fst (addFile example_store (inl "import-map.json")))) /\
  (serialize Example.JSON_parse Example.JSON_stringify Example.utoa
     (store_with_import_map "{") =
     Throw (SyntaxError "Unexpected token or end of JSON input") /\
   getImportMap Example.JSON_parse (store_with_import_map "{") =
     (JObj [],
      with_errors (store_with_import_map "{")
        ["Syntax error in import-map.json: Unexpected token or end of JSON input"])).
Proof. repeat split; vm_compute; reflexivity. Qed.

Section SerializeText.

Variable JSON_parse : string -> json + string.
Variable JSON_stringify : nat -> json -> string.
Variable utoa : string -> string.

(** Whenever the content of the import-map file does not parse, [serialize]
    throws. *)
Lemma serialize_throws (st : StoreState) (f : File) (message : string) :
  well_named (files st) ->
  get importMapFile (files st) = Some f ->
  JSON_parse (code f) = inr message ->
  serialize JSON_parse JSON_stringify utoa st = Throw (SyntaxError message).
Proof.
  intros WN G P. unfold serialize, serialize_payload. cbv zeta.
  rewrite (get_importMap_getFiles st WN), G. simpl. rewrite P. reflexivity.
Qed.

(** Otherwise a well-named store serializes to [#] followed by the encoded
    JSON text of its exported files, the import-map file pruned, and of the
    version marker. *)
Lemma serialize_text (st : StoreState) (importMap : option string) :
  well_named (files st) ->
  ~ In "__proto__" (List.map stripSrcPrefix (keys (files st))) ->
  exported_import_map JSON_parse JSON_stringify st = Ok importMap ->
  serialize JSON_parse JSON_stringify utoa st =
  Ok ("#" ++ utoa (JSON_stringify 0 (JObj (payload_of importMap st)))).
Proof.
  intros WN NP X. unfold serialize.
  now rewrite (serialize_payload_eq JSON_parse JSON_stringify st WN NP X).
Qed.

End SerializeText.

(* ================================================================== *)
(** * Examples *)
(* ================================================================== *)

(** With the built-in map [{imports: {vue: "https://A"}}] and the user map
    [{imports: {vue: "https://A", foo: "https://B"}}], [serialize] exports
    [foo] alone. *)
Example serialize_keeps_overrides :
  exported_import_map Example.JSON_parse Example.JSON_stringify
    store_with_version = Ok (Some example_exported_import_map) /\
  serialize_payload Example.JSON_parse Example.JSON_stringify
    store_with_version =
    Ok (payload_of (Some example_exported_import_map) store_with_version).
Proof. split; vm_compute; reflexivity. Qed.

(** The default store exports no import map at all: every entry is the
    built-in one. *)
Example serialize_drops_builtin_import_map :
  exported_import_map Example.JSON_parse Example.JSON_stringify example_store
    = Ok None.
Proof. vm_compute. reflexivity. Qed.

Example endsWith_tsx :
  Str.endsWith "src/Comp.tsx" ".tsx" = true /\
  Str.endsWith "tsx" ".tsx" = false /\
  Str.endsWith "src/a.ts" ".tsx" = false.
Proof. repeat split. Qed.

Example array_index_examples :
  array_index "0" = Some 0%N /\ array_index "7" = Some 7%N /\
  array_index "07" = None /\ array_index "4294967295" = None /\
  array_index "src/7" = None.
Proof. repeat split. Qed.

(** Keys that are array indices come first, whatever the order of
    creation. *)
Example set_array_index_first :
  keys (set "2" 0 (set "10" 1 (set "b" 2 (set "a" 3 [])))) =
  ["2"; "10"; "a"; "b"]%list.
Proof. reflexivity. Qed.

Example index_key_examples :
  Js.index_key 0 = "0" /\ Js.index_key 12 = "12".
Proof. split; reflexivity. Qed.

(** The example reader inverts the example printer on the default
    tsconfig. *)
Example parse_print_tsconfig :
  Example.JSON_parse (Example.JSON_stringify 2 tsconfig) = inl tsconfig /\
  Example.JSON_parse (Example.JSON_stringify 0 tsconfig) = inl tsconfig.
Proof. split; vm_compute; reflexivity. Qed.

(* ================================================================== *)
(** * Every operation keeps the file mapping a well-formed object *)
(* ================================================================== *)

Lemma precedes_trans (a b c : string) :
  precedes a b = true -> precedes b c = true -> precedes a c = true.
Proof.
  unfold precedes.
  destruct (array_index a) as [i|], (array_index b) as [j|],
    (array_index c) as [m|]; try discriminate; try reflexivity.
  rewrite !N.ltb_lt. lia.
Qed.

Lemma precedes_asym (a b : string) :
  precedes a b = true -> precedes b a = false.
Proof.
  unfold precedes.
  destruct (array_index a) as [i|], (array_index b) as [j|];
    try discriminate; try reflexivity.
  rewrite N.ltb_lt, N.ltb_ge. lia.
Qed.

Lemma key_order_insert_new {V} (k : string) (v : V) (o : obj V) :
  ~ In k (keys o) -> wf o = true -> wf (insert_new k v o) = true.
Proof.
  unfold wf. induction o as [|[k' v'] o IH]; intros Nin W; [reflexivity|].
  simpl in Nin. cbn [insert_new].
  destruct (precedes k k') eqn:P.
  - change (keys ((k, v) :: (k', v') :: o)) with (k :: keys ((k', v') :: o)).
    cbn [key_order]. rewrite W, andb_true_r. apply andb_true_iff. split.
    + apply negb_true_iff, ObjFacts.mem_false. exact Nin.
    + change (keys ((k', v') :: o)) with (k' :: keys o) in *.
      cbn [key_order] in W. cbn [forallb].
      apply andb_true_iff in W as [W _]. apply andb_true_iff in W as [_ W].
      rewrite (precedes_asym _ _ P). cbn [negb andb].
      rewrite forallb_forall in *. intros x I. specialize (W x I).
      apply negb_true_iff in W. apply negb_true_iff.
      destruct (precedes x k) eqn:Q; [|reflexivity].
      now rewrite (precedes_trans _ _ _ Q P) in W.
  - change (keys ((k', v') :: insert_new k v o))
      with (k' :: keys (insert_new k v o)).
    change (keys ((k', v') :: o)) with (k' :: keys o) in W.
    cbn [key_order] in *.
    apply andb_true_iff in W as [W W3]. apply andb_true_iff in W as [W1 W2].
    rewrite IH by tauto. rewrite andb_true_r. apply andb_true_iff. split.
    + apply negb_true_iff, ObjFacts.mem_false. intros I.
      apply ObjFacts.keys_insert_new in I as [-> | I]; [tauto|].
      apply negb_true_iff, ObjFacts.mem_false in W1. tauto.
    + rewrite forallb_forall in *. intros x I.
      apply ObjFacts.keys_insert_new in I as [-> | I]; [now rewrite P | auto].
Qed.

Lemma wf_set {V} (k : string) (v : V) (o : obj V) :
  wf o = true -> wf (set k v o) = true.
Proof.
  intros W. unfold set. destruct (has k o) eqn:H.
  - unfold wf. now rewrite ObjFacts.keys_replace_val.
  - apply key_order_insert_new; [|exact W].
    now apply ObjFacts.get_None_keys, ObjFacts.has_false.
Qed.

Lemma wf_delete {V} (k : string) (o : obj V) :
  wf o = true -> wf (delete k o) = true.
Proof.
  unfold wf. rewrite ObjFacts.keys_delete. apply key_order_delete.
Qed.

Lemma wf_replace_val {V} (k : string) (v : V) (o : obj V) :
  wf o = true -> wf (replace_val k v o) = true.
Proof. unfold wf. now rewrite ObjFacts.keys_replace_val. Qed.

Lemma wf_setFile fs filename content hidden :
  wf fs = true -> wf (setFile fs filename content hidden) = true.
Proof. apply wf_set. Qed.

Lemma wf_rename_loop o n (l : list (string * File)) :
  wf (renamed_files o n l) = true.
Proof.
  unfold renamed_files.
  assert (G : forall acc, wf acc = true ->
              wf (fold_left
                    (fun newFiles '(name, file) =>
                       if name =? o then set n file newFiles
                       else set name file newFiles) l acc) = true).
  { induction l as [|[name f] l IH]; intros acc W; simpl; [exact W|].
    apply IH. destruct (name =? o); now apply wf_set. }
  now apply G.
Qed.

Lemma wf_setDefaultFile st :
  wf (files st) = true -> wf (files (setDefaultFile st)) = true.
Proof.
  intros W. unfold setDefaultFile. simpl. now repeat apply wf_setFile.
Qed.

Lemma wf_restore saved st :
  wf (files st) = true -> wf (files (fst (restore saved st))) = true.
Proof.
  revert st. induction saved as [|[filename value] rest IH]; intros st W;
    simpl; [exact W|].
  destruct (filename =? "_version").
  - destruct value; simpl; try exact W; now apply IH.
  - destruct (Js.field value "code") as [c| |];
      destruct (Js.field value "hidden") as [h| |]; simpl; try exact W.
    destruct c as [[]|]; simpl; try exact W;
      destruct h as [[]|]; simpl; try exact W;
      apply IH; simpl; now apply wf_setFile.
Qed.

Lemma wf_fold_setFile (l : list (string * string)) (acc : obj File) :
  wf acc = true ->
  wf (fold_left (fun fs '(filename, file) => setFile fs filename file false)
        l acc) = true.
Proof.
  revert acc. induction l as [|[n c] l IH]; intros acc W; simpl; [exact W|].
  apply IH. now apply wf_setFile.
Qed.

Lemma assign_wf p o k f o' p' :
  assign p o k f = Ok (o', p') -> wf o = true -> wf o' = true.
Proof.
  intros A W. apply assign_cases in A as [A | [(A & _) | (A & _)]];
    try discriminate; injection A as -> ->; [now apply wf_set | exact W].
Qed.

Lemma rename_loop_wf o n (l : list (string * File)) acc fs p :
  rename_loop o n l acc = Ok (fs, p) -> wf (fst acc) = true -> wf fs = true.
Proof.
  revert acc. induction l as [|[name f] l IH]; intros acc; simpl.
  - intros E. now injection E as ->.
  - destruct (assign (snd acc) (fst acc) (if name =? o then n else name) f)
      as [[o' p']| |] eqn:A; try discriminate.
    intros L W. apply (IH _ L). simpl. exact (assign_wf _ _ _ _ A W).
Qed.

Lemma wf_rename_rest st0 file o n :
  wf (files st0) = true ->
  wf (files (fst (fst (rename_rest st0 file o n)))) = true.
Proof.
  intros W. unfold rename_rest.
  destruct (rename_loop o n (entries (files st0)) ([], ObjectPrototype))
    as [[fs p]| |] eqn:L; simpl; try exact W.
  apply rename_loop_wf in L; [|reflexivity].
  destruct (mainFile st0 =? o); simpl;
    destruct (activeFilename st0 =? o); simpl; exact L.
Qed.

Lemma wf_renameFile st o n :
  wf (files st) = true ->
  wf (files (fst (fst (renameFile st o n)))) = true.
Proof.
  intros W. unfold renameFile.
  destruct (lookup (filesProto st) (files st) o) as [f|f| | |];
    try destruct ((n =? "") || (o =? n)); try exact W.
  - apply wf_rename_rest. simpl. now apply wf_replace_val.
  - now apply wf_rename_rest.
Qed.

Lemma wf_addFile st x :
  wf (files st) = true -> wf (files (fst (addFile st x))) = true.
Proof.
  intros W. unfold addFile.
  destruct (assign _ _ _ _) as [[fs p]| |] eqn:A; simpl; try exact W.
  apply assign_wf in A; [|exact W].
  unfold setActive. destruct (hidden _); [|destruct (reserved _)]; exact A.
Qed.

Section WellFormed.

Variable JSON_parse : string -> json + string.
Variable JSON_stringify : nat -> json -> string.
Variable atou : string -> string + exn.
Variable mergeImportMap : json -> json -> result json.
Variable compileFile : StoreState -> File -> Compiled * list string.
Variable getViteConfig : StoreState -> option exn.

Lemma wf_deserialize st s :
  wf (files st) = true ->
  wf (files (fst (fst (deserialize JSON_parse atou st s)))) = true.
Proof.
  intros W. unfold deserialize. destruct (atou _) as [text|err]; simpl.
  - destruct (JSON_parse text) as [saved|message]; simpl.
    + pose proof (wf_restore (Js.own_entries saved) st W) as E.
      destruct (restore (Js.own_entries saved) st). exact E.
    + now apply wf_setDefaultFile.
  - now apply wf_setDefaultFile.
Qed.

Lemma wf_applyBuiltinImportMap st :
  wf (files st) = true ->
  wf (files (fst (applyBuiltinImportMap JSON_parse JSON_stringify
                    mergeImportMap st))) = true.
Proof.
  intros W. unfold applyBuiltinImportMap, getImportMap.
  destruct (JSON_parse _) as [user|message];
    (destruct (mergeImportMap _ _) as [merged| |]; simpl; try exact W);
    unfold setImportMap;
    (destruct (fix_imports merged) as [map' []]; simpl; try exact W);
    (destruct (get importMapFile (files st));
     [now apply wf_replace_val | now apply wf_set]).
Qed.

Lemma wf_compile_all st fs :
  wf fs = true -> wf (fst (compile_all compileFile st fs)) = true.
Proof.
  unfold wf, compile_all, keys. simpl. rewrite map_map.
  intros W. erewrite map_ext; [exact W|]. now intros [k f].
Qed.

Lemma wf_setFiles st newFiles m :
  wf (files (fst (setFiles JSON_parse JSON_stringify mergeImportMap
                    compileFile st newFiles m))) = true.
Proof.
  unfold setFiles.
  set (main := addSrcPrefix match m with Some x => x | None => mainFile st end).
  set (fs0 := match get main newFiles with
              | Some content =>
                  if content =? ""
                  then setFile [] main (welcome (template st)) false else []
              | None => setFile [] main (welcome (template st)) false
              end).
  assert (W0 : wf fs0 = true).
  { subst fs0. destruct (get main newFiles) as [content|];
      [destruct (content =? "")|]; reflexivity. }
  set (fs1 := fold_left
                (fun fs '(filename, file) => setFile fs filename file false)
                (entries newFiles) fs0).
  assert (W1 : wf fs1 = true).
  { subst fs1. now apply wf_fold_setFile. }
  pose proof (wf_compile_all st fs1 W1) as W2.
  destruct (compile_all compileFile st fs1) as [fs errs]. simpl in W2.
  set (st1 := with_errors
                (with_filesProto (with_files (with_mainFile st main) fs)
                   NoPrototype) errs).
  pose proof (wf_applyBuiltinImportMap st1 W2) as W3.
  destruct (applyBuiltinImportMap _ _ _ st1) as [st2 c]. simpl in W3.
  destruct c; simpl; try exact W3.
  unfold setActive. destruct (reserved (mainFile st2)); exact W3.
Qed.

(** The file mapping stays a well-formed object under every call. *)
Lemma wf_run o st st' :
  wf (files st) = true ->
  run JSON_parse JSON_stringify atou mergeImportMap compileFile getViteConfig
    o st = Some st' ->
  wf (files st') = true.
Proof.
  intros W R.
  destruct o as [x | f answer | o n | newFiles mainFile' | serializedState |
                 | f]; simpl in R.
  - pose proof (wf_addFile st x W) as I.
    destruct (addFile st x) as [s c].
    destruct c; simpl in R; try discriminate; injection R as <-; exact I.
  - injection R as <-. unfold deleteFile. destruct answer; simpl; [|exact W].
    destruct (activeFilename st =? f); simpl; now apply wf_delete.
  - pose proof (wf_renameFile st o n W) as I.
    destruct (renameFile st o n) as [[s e] c].
    destruct c; simpl in R; try discriminate; injection R as <-; exact I.
  - pose proof (wf_setFiles st newFiles mainFile') as I.
    destruct (setFiles _ _ _ _ st newFiles mainFile') as [s c].
    destruct c; simpl in R; try discriminate; injection R as <-; exact I.
  - pose proof (wf_deserialize st serializedState W) as E.
    destruct (deserialize _ _ st serializedState) as [[s effs] c].
    destruct c; simpl in R; try discriminate; injection R as <-; exact E.
  - pose proof (init_state JSON_stringify getViteConfig st) as (F & _).
    destruct (init JSON_stringify getViteConfig st) as [[s effs] c].
    simpl in F.
    assert (I : wf (files s) = true).
    { rewrite F. destruct (has tsconfigFile (files st)); [exact W|].
      now apply wf_set. }
    destruct c; simpl in R; try discriminate; injection R as <-; exact I.
  - injection R as <-. unfold setActive. destruct (reserved _); exact W.
Qed.

(** A store constructed over a well-formed file mapping has one. *)
Lemma wf_useStore refs a s st effs c :
  wf (files refs) = true ->
  useStore JSON_parse JSON_stringify atou mergeImportMap refs a s =
    (st, effs, c) ->
  wf (files st) = true.
Proof.
  intros W. unfold useStore.
  set (r := match s with
            | Some s0 => if s0 =? "" then (setDefaultFile refs, [], Normal)
                         else deserialize JSON_parse atou refs s0
            | None => (setDefaultFile refs, [], Normal)
            end).
  assert (W1 : wf (files (fst (fst r))) = true).
  { subst r. destruct s as [s0|]; [destruct (s0 =? "")|];
      simpl; try now apply wf_setDefaultFile. now apply wf_deserialize. }
  destruct r as [[st1 effs1] c1]. simpl in W1.
  destruct c1; try (intros R; injection R as <- _ _; exact W1).
  assert (G : forall m,
             wf (files (fst (applyBuiltinImportMap JSON_parse JSON_stringify
                               mergeImportMap
                               (with_activeFilename (with_mainFile st1 m)
                                  match a with
                                  | Some a0 => a0
                                  | None => m
                                  end)))) = true)
    by (intros m; now apply wf_applyBuiltinImportMap).
  destruct (lookup (filesProto st1) (files st1) (mainFile st1));
    try (intros R; injection R as <- _ _; exact W1);
    try (specialize (G (mainFile st1));
         destruct (applyBuiltinImportMap _ _ _ _) as [st4 c'];
         intros R; injection R as <- _ _; exact G).
  destruct (find_tsx (files st1)) as [m|];
    [|intros R; injection R as <- _ _; exact W1].
  specialize (G m). destruct (applyBuiltinImportMap _ _ _ _) as [st4 c'].
  intros R. injection R as <- _ _. exact G.
Qed.

End WellFormed.

(* ================================================================== *)
(** * Further properties of the store *)
(* ================================================================== *)

Lemma drop_drop (a b : nat) (s : string) :
  Str.drop a (Str.drop b s) = Str.drop (a + b) s.
Proof.
  revert s. induction b as [|b IH]; intros s.
  - now rewrite Nat.add_0_r.
  - rewrite Nat.add_succ_r. destruct s as [|c s]; simpl.
    + now destruct a.
    + apply IH.
Qed.

Lemma length_drop (n : nat) (s : string) :
  String.length (Str.drop n s) = (String.length s - n)%nat.
Proof.
  revert s. induction n as [|n IH]; intros s; simpl.
  - now rewrite Nat.sub_0_r.
  - destruct s as [|c s]; simpl; auto.
Qed.

(** Two suffixes of one string: the shorter is a suffix of the longer. *)
Lemma endsWith_both (s p q : string) :
  Str.endsWith s p = true -> Str.endsWith s q = true ->
  (String.length q <= String.length p)%nat -> Str.endsWith p q = true.
Proof.
  unfold Str.endsWith. intros Hp Hq L.
  apply andb_true_iff in Hp as [Lp Ep]. apply andb_true_iff in Hq as [Lq Eq].
  apply Nat.leb_le in Lp. apply String.eqb_eq in Ep, Eq.
  apply andb_true_iff. split; [now apply Nat.leb_le|].
  apply String.eqb_eq. rewrite <- Ep at 2. rewrite drop_drop.
  rewrite <- Eq at 2. f_equal. rewrite <- Ep at 1 2.
  rewrite length_drop. lia.
Qed.

Lemma endsWith_exclusive (s p q : string) :
  Str.endsWith p q = false -> Str.endsWith q p = false ->
  Str.endsWith s p = true -> Str.endsWith s q = false.
Proof.
  intros Npq Nqp Hp. destruct (Str.endsWith s q) eqn:Hq; [|reflexivity].
  destruct (Nat.le_ge_cases (String.length q) (String.length p)) as [L | L].
  - now rewrite (endsWith_both _ _ _ Hp Hq L) in Npq.
  - now rewrite (endsWith_both _ _ _ Hq Hp L) in Nqp.
Qed.

(** X1: the language of a file is decided by its extension alone, whatever
    the order of the tests: [vue], [html], [css] and [typescript] exactly
    for the names ending in [.vue], [.html], [.css] and [.ts], and
    [javascript] for every other name, the names ending in [.tsx] among
    them. *)
Theorem language_by_extension (f : File) :
  (language f = "vue" <-> Str.endsWith (filename f) ".vue" = true) /\
  (language f = "html" <-> Str.endsWith (filename f) ".html" = true) /\
  (language f = "css" <-> Str.endsWith (filename f) ".css" = true) /\
  (language f = "typescript" <-> Str.endsWith (filename f) ".ts" = true) /\
  (language f = "javascript" <->
   Str.endsWith (filename f) ".vue" = false /\
   Str.endsWith (filename f) ".html" = false /\
   Str.endsWith (filename f) ".css" = false /\
   Str.endsWith (filename f) ".ts" = false) /\
  (Str.endsWith (filename f) ".tsx" = true -> language f = "javascript").
Proof.
  unfold language. set (n := filename f).
  assert (X : forall p q, Str.endsWith p q = false ->
                          Str.endsWith q p = false ->
                          Str.endsWith n p = true -> Str.endsWith n q = false)
    by (intros p q; apply endsWith_exclusive).
  destruct (Str.endsWith n ".vue") eqn:V.
  { rewrite (X ".vue" ".html"), (X ".vue" ".css"), (X ".vue" ".ts"),
      (X ".vue" ".tsx") by (reflexivity || exact V).
    repeat split; intros; try discriminate; try reflexivity;
      intuition discriminate. }
  destruct (Str.endsWith n ".html") eqn:H.
  { rewrite (X ".html" ".css"), (X ".html" ".ts"), (X ".html" ".tsx")
      by (reflexivity || exact H).
    repeat split; intros; try discriminate; try reflexivity;
      intuition discriminate. }
  destruct (Str.endsWith n ".css") eqn:C.
  { rewrite (X ".css" ".ts"), (X ".css" ".tsx") by (reflexivity || exact C).
    repeat split; intros; try discriminate; try reflexivity;
      intuition discriminate. }
  destruct (Str.endsWith n ".ts") eqn:T.
  { rewrite (X ".ts" ".tsx") by (reflexivity || exact T).
    repeat split; intros; try discriminate; try reflexivity;
      intuition discriminate. }
  repeat split; intros; try discriminate; try reflexivity.
Qed.

(** X2: [setActive] writes the name into one of the two selection slots and
    touches nothing else: a reserved name becomes the active configuration
    file and leaves the active file, any other name becomes the active file
    and leaves the active configuration file; within a slot the last call
    wins, and calls for different slots commute. *)
Theorem setActive_slots (st : StoreState) (f g : string) :
  files (setActive st f) = files st /\
  filesProto (setActive st f) = filesProto st /\
  mainFile (setActive st f) = mainFile st /\
  errors (setActive st f) = errors st /\
  (reserved f = true ->
   activeConfigFilename (setActive st f) = f /\
   activeFilename (setActive st f) = activeFilename st) /\
  (reserved f = false ->
   activeFilename (setActive st f) = f /\
   activeConfigFilename (setActive st f) = activeConfigFilename st) /\
  (reserved f = reserved g ->
   setActive (setActive st f) g = setActive st g) /\
  (reserved f <> reserved g ->
   setActive (setActive st f) g = setActive (setActive st g) f).
Proof.
  unfold setActive. destruct (reserved f), (reserved g); simpl;
    repeat split; intros; try reflexivity; try discriminate; congruence.
Qed.

Lemma bare_cases (f : string) :
  (bare f = true /\ addSrcPrefix f = "src/" ++ f) \/
  (bare f = false /\ addSrcPrefix f = f).
Proof.
  unfold bare. destruct (addSrcPrefix_cases f) as [[[R | P] E] | (R & P & E)].
  - right. now rewrite R.
  - right. rewrite P, andb_false_r. auto.
  - left. now rewrite R, P.
Qed.

Lemma src_app_inj (a b : string) : "src/" ++ a = "src/" ++ b -> a = b.
Proof. simpl. congruence. Qed.

(** X3: two names are normalized to the same key exactly when they are
    equal or one of them is a bare name and the other is that name under
    [src/]. *)
Theorem addSrcPrefix_collisions (a b : string) :
  addSrcPrefix a = addSrcPrefix b <->
  a = b \/ (bare b = true /\ a = "src/" ++ b) \/
  (bare a = true /\ b = "src/" ++ a).
Proof.
  destruct (bare_cases a) as [[Ba Ea] | [Ba Ea]];
    destruct (bare_cases b) as [[Bb Eb] | [Bb Eb]]; rewrite Ea, Eb.
  - split.
    + intros E. left. now apply src_app_inj.
    + intros [-> | [[_ ->] | [_ ->]]]; [reflexivity| |].
      * unfold bare in Ba. rewrite startsWith_src, andb_false_r in Ba.
        discriminate.
      * unfold bare in Bb. rewrite startsWith_src, andb_false_r in Bb.
        discriminate.
  - split.
    + intros <-. right. right. auto.
    + intros [-> | [[B _] | [_ ->]]]; congruence.
  - split.
    + intros ->. right. left. auto.
    + intros [-> | [[_ ->] | [B _]]]; congruence.
  - split.
    + intros ->. now left.
    + intros [-> | [[B _] | [B _]]]; congruence.
Qed.

Lemma delete_insert_new {V} (k : string) (v : V) (o : obj V) :
  get k o = None -> delete k (insert_new k v o) = o.
Proof.
  induction o as [|[k' v'] o IH]; simpl; intros G.
  - now rewrite String.eqb_refl.
  - destruct (String.eqb_spec k k') as [->|N]; [discriminate|].
    destruct (precedes k k'); simpl.
    + rewrite String.eqb_refl.
      destruct (String.eqb_spec k k'); [congruence|].
      now rewrite ObjFacts.delete_absent.
    + destruct (String.eqb_spec k k'); [congruence|]. now rewrite IH.
Qed.

Lemma delete_set_new {V} (k : string) (v : V) (o : obj V) :
  get k o = None -> delete k (set k v o) = o.
Proof.
  intros G. unfold set.
  assert (H : has k o = false) by now apply ObjFacts.has_false.
  rewrite H. now apply delete_insert_new.
Qed.

(** X4: adding a file under a name that is not yet a key and then deleting
    it (the prompt answering yes) gives back the file mapping as it was, in
    the same order.  [addFile] returns unless the name is [language] and
    the prototype of the mapping is a file; when it returns, the selection
    does not come back: after a regular name the active file is the main
    file, and after a reserved name the active configuration file still
    names the deleted file (the active file being as before unless it was
    that name). *)
Theorem addFile_then_deleteFile (st : StoreState) (f : string) :
  get f (files st) = None ->
  let st' := deleteFile (fun _ => true) (fst (addFile st (inl f))) f in
  files st' = files st /\
  mainFile st' = mainFile st /\
  (snd (addFile st (inl f)) = Normal <->
   ~ (f = "language" /\ exists g, filesProto st = FilePrototype g)) /\
  (snd (addFile st (inl f)) = Normal -> reserved f = false ->
   activeFilename st' = mainFile st /\
   activeConfigFilename st' = activeConfigFilename st) /\
  (snd (addFile st (inl f)) = Normal -> reserved f = true ->
   activeConfigFilename st' = f /\
   activeFilename st' =
     (if activeFilename st =? f then mainFile st else activeFilename st)).
Proof.
  intros G. cbv zeta.
  assert (H : has f (files st) = false) by now apply ObjFacts.has_false.
  unfold addFile. cbn [newFile filename hidden].
  match goal with
  | |- context [assign ?p ?o ?k ?v] =>
      destruct (@assign_cases p o k v _ eq_refl)
        as [A | [(A & E & _ & P) | (A & E & _ & g & P)]]; rewrite A
  end.
  - assert (NL : ~ (f = "language" /\
                    exists g, filesProto st = FilePrototype g)).
    { intros [-> [g Pg]]. unfold assign in A. rewrite H, Pg in A.
      discriminate. }
    unfold deleteFile, setActive. destruct (reserved f) eqn:R; simpl.
    + destruct (activeFilename st =? f); simpl;
        rewrite delete_set_new by exact G;
        (split; [reflexivity|]); (split; [reflexivity|]);
        (split; [tauto|]); (split; [discriminate|]); intros _ _;
        split; reflexivity.
    + rewrite String.eqb_refl. simpl. rewrite delete_set_new by exact G.
      split; [reflexivity|]. split; [reflexivity|]. split; [tauto|].
      split; [|discriminate]. intros _ _. split; reflexivity.
  - subst f. unfold deleteFile, setActive. simpl.
    rewrite ObjFacts.delete_absent by exact G.
    split; [reflexivity|]. split; [reflexivity|]. split.
    + split; [|reflexivity]. intros _ [E _]. discriminate.
    + split; [|discriminate]. intros _ _. split; reflexivity.
  - subst f. unfold deleteFile. simpl.
    assert (F : files (if activeFilename st =? "language"
                       then with_activeFilename st (mainFile st) else st) =
                files st /\
                mainFile (if activeFilename st =? "language"
                          then with_activeFilename st (mainFile st) else st) =
                mainFile st)
      by (destruct (activeFilename st =? "language"); split; reflexivity).
    destruct F as [F1 F2]. rewrite F1, F2.
    rewrite ObjFacts.delete_absent by exact G.
    split; [reflexivity|]. split; [reflexivity|]. split.
    + split; [discriminate|]. intros N. exfalso. apply N. eauto.
    + split; discriminate.
Qed.

Lemma addFile_then_deleteFile_witness :
  let st' :=
    deleteFile (fun _ => true)
      (fst (addFile example_store (inl "src/util.ts"))) "src/util.ts" in
  files st' = files example_store /\
  mainFile st' = mainFile example_store /\
  (snd (addFile example_store (inl "src/util.ts")) = Normal <->
   ~ ("src/util.ts" = "language" /\
      exists g, filesProto example_store = FilePrototype g)) /\
  (snd (addFile example_store (inl "src/util.ts")) = Normal ->
   reserved "src/util.ts" = false ->
   activeFilename st' = mainFile example_store /\
   activeConfigFilename st' = activeConfigFilename example_store) /\
  (snd (addFile example_store (inl "src/util.ts")) = Normal ->
   reserved "src/util.ts" = true ->
   activeConfigFilename st' = "src/util.ts" /\
   activeFilename st' =
     (if activeFilename example_store =? "src/util.ts"
      then mainFile example_store else activeFilename example_store)).
Proof.
  apply (@addFile_then_deleteFile example_store "src/util.ts"). reflexivity.
Defined.

(** X5: [addFile] with a name that is already a key returns and overwrites
    the file without a warning: the key keeps its place, the file under it
    is a new one (boilerplate or empty content, not hidden, nothing
    compiled), and no other file changes. *)
Theorem addFile_overwrites (st : StoreState) (f : string) (old : File) :
  get f (files st) = Some old ->
  let st' := fst (addFile st (inl f)) in
  snd (addFile st (inl f)) = Normal /\
  keys (files st') = keys (files st) /\
  get f (files st') =
    Some (newFile f (if Str.endsWith f ".tsx" then new (template st) else "")
            false) /\
  (forall g, g <> f -> get g (files st') = get g (files st)) /\
  filesProto st' = filesProto st /\
  errors st' = errors st.
Proof.
  intros G. cbv zeta.
  assert (K : keyed (filesProto st) (files st) f = true)
    by (unfold keyed, has; now rewrite G).
  rewrite (addFile_name_files st f K).
  rewrite (addFile_keyed st (inl f) K). repeat split.
  - unfold set, has. rewrite G. apply ObjFacts.keys_replace_val.
  - rewrite ObjFacts.get_set, String.eqb_refl. reflexivity.
  - intros g N. rewrite ObjFacts.get_set. apply String.eqb_neq in N.
    now rewrite N.
  - unfold setActive. simpl. destruct (reserved f); reflexivity.
  - unfold setActive. simpl. destruct (reserved f); reflexivity.
Qed.

Lemma addFile_overwrites_witness :
  let st' := fst (addFile example_store (inl "src/App.tsx")) in
  snd (addFile example_store (inl "src/App.tsx")) = Normal /\
  keys (files st') = keys (files example_store) /\
  get "src/App.tsx" (files st') =
    Some (newFile "src/App.tsx"
            (if Str.endsWith "src/App.tsx" ".tsx"
             then new (template example_store) else "") false) /\
  (forall g, g <> "src/App.tsx" ->
             get g (files st') = get g (files example_store)) /\
  filesProto st' = filesProto example_store /\
  errors st' = errors example_store.
Proof.
  apply (@addFile_overwrites example_store "src/App.tsx"
           (newFile "src/App.tsx" (welcome example_template) false)).
  reflexivity.
Defined.

Lemma In_replace_val {V} (k : string) (v : V) (o : obj V) (x : string * V) :
  In x (replace_val k v o) -> x = (k, v) \/ In x o.
Proof.
  induction o as [|[k' v'] o IH]; simpl; [tauto|].
  destruct (String.eqb_spec k k') as [->|N]; simpl.
  - intuition.
  - intros [E | I]; [auto | destruct (IH I); auto].
Qed.

Lemma In_insert_new {V} (k : string) (v : V) (o : obj V) (x : string * V) :
  In x (insert_new k v o) -> x = (k, v) \/ In x o.
Proof.
  induction o as [|[k' v'] o IH]; simpl; [intuition|].
  destruct (precedes k k'); simpl.
  - intuition.
  - intros [E | I]; [auto | destruct (IH I); auto].
Qed.

Lemma In_set {V} (k : string) (v : V) (o : obj V) (x : string * V) :
  In x (set k v o) -> x = (k, v) \/ In x o.
Proof.
  unfold set. destruct (has k o); [apply In_replace_val | apply In_insert_new].
Qed.


Lemma In_keys {V} (k : string) (v : V) (o : obj V) :
  In (k, v) o -> In k (keys o).
Proof. intros I. apply in_map_iff. now exists (k, v). Qed.

(** In a well-formed object a key has one value. *)
Lemma wf_In_get {V} (k : string) (v : V) (o : obj V) :
  wf o = true -> In (k, v) o -> get k o = Some v.
Proof.
  unfold wf. induction o as [|[k' v'] o IH]; simpl; intros W I; [destruct I|].
  apply andb_true_iff in W as [W W3]. apply andb_true_iff in W as [W1 _].
  apply negb_true_iff, ObjFacts.mem_false in W1.
  destruct I as [E | I].
  - injection E as -> ->. now rewrite String.eqb_refl.
  - destruct (String.eqb_spec k k') as [->|N]; [|auto].
    exfalso. apply W1. now apply In_keys with (v := v).
Qed.

Lemma named_set (k : string) (f : File) (o : obj File) :
  named o -> filename f = k -> named (set k f o).
Proof.
  intros N E k' f' I. apply In_set in I as [I | I]; [|auto].
  now injection I as -> ->.
Qed.



Lemma named_nil : named [].
Proof. intros k f []. Qed.

Lemma named_rename_loop o n (l : list (string * File)) :
  (forall name f, In (name, f) l -> filename f = renamed_key o n name) ->
  named (renamed_files o n l).
Proof.
  unfold renamed_files. generalize (@nil (string * File)) named_nil.
  induction l as [|[name f] l IH]; intros acc Na H; simpl; [exact Na|].
  apply IH.
  - assert (E : filename f = renamed_key o n name) by (apply H; now left).
    unfold renamed_key in E.
    destruct (name =? o); now apply named_set.
  - intros; apply H; now right.
Qed.










Section Named.

Variable JSON_parse : string -> json + string.
Variable JSON_stringify : nat -> json -> string.
Variable atou : string -> string + exn.
Variable mergeImportMap : json -> json -> result json.
Variable compileFile : StoreState -> File -> Compiled * list string.
Variable getViteConfig : StoreState -> option exn.







End Named.








(** X8: [getTsConfig] cannot throw: it returns the empty object when the
    tsconfig file is missing and when its content does not parse.  After
    [init] on a store without a tsconfig file it returns the default
    compiler options, whether the evaluation of the build configuration
    resolves or rejects. *)
Theorem getTsConfig_after_init (JSON_parse : string -> json + string)
  (JSON_stringify : nat -> json -> string)
  (getViteConfig : StoreState -> option exn) (st : StoreState) :
  JSON_parse (JSON_stringify 2 tsconfig) = inl tsconfig ->
  (get tsconfigFile (files st) = None ->
   getTsConfig JSON_parse st = JObj [] /\
   getTsConfig JSON_parse (fst (fst (init JSON_stringify getViteConfig st))) =
     tsconfig) /\
  (forall f message,
     get tsconfigFile (files st) = Some f ->
     JSON_parse (code f) = inr message ->
     getTsConfig JSON_parse st = JObj [] /\
     getTsConfig JSON_parse (fst (fst (init JSON_stringify getViteConfig st))) =
       JObj []).
Proof.
  intros P.
  pose proof (init_state JSON_stringify getViteConfig st) as (F & _).
  cbv zeta in F. split.
  - intros G. split; [unfold getTsConfig; now rewrite G|].
    unfold getTsConfig. rewrite F. unfold has. rewrite G.
    rewrite ObjFacts.get_set, String.eqb_refl. simpl. now rewrite P.
  - intros f message G E. split; [unfold getTsConfig; now rewrite G, E|].
    unfold getTsConfig. rewrite F. unfold has. now rewrite G, G, E.
Qed.

Lemma getTsConfig_after_init_witness :
  (get tsconfigFile (files example_store) = None ->
   getTsConfig Example.JSON_parse example_store = JObj [] /\
   getTsConfig Example.JSON_parse
     (fst (fst (init Example.JSON_stringify Example.getViteConfig
                  example_store))) = tsconfig) /\
  (forall f message,
     get tsconfigFile (files example_store) = Some f ->
     Example.JSON_parse (code f) = inr message ->
     getTsConfig Example.JSON_parse example_store = JObj [] /\
     getTsConfig Example.JSON_parse
       (fst (fst (init Example.JSON_stringify Example.getViteConfig
                    example_store))) = JObj []).
Proof.
  apply (@getTsConfig_after_init Example.JSON_parse Example.JSON_stringify
           Example.getViteConfig example_store).
  vm_compute. reflexivity.
Defined.

Lemma get_setDefaultFile (st : StoreState) (g : string) :
  get g (files (setDefaultFile st)) =
  if g =? tsMacroConfigFile
  then Some (newFile tsMacroConfigFile (tsMacroConfigCode st) false)
  else if g =? viteConfigFile
  then Some (newFile viteConfigFile (viteConfig (template st)) false)
  else if g =? welcomeFile
  then Some (newFile welcomeFile (welcome (template st)) false)
  else if g =? indexHtmlFile
  then Some (newFile indexHtmlFile (indexHtml (template st)) true)
  else get g (files st).
Proof.
  unfold setDefaultFile, setFile. simpl files.
  rewrite !ObjFacts.get_set. reflexivity.
Qed.

(** X9: a serialized state that cannot be decoded (the text encoding or
    the JSON is malformed) makes [deserialize] report the error on the
    console, raise one alert and return normally with the four default
    files of the template written: the markup entry (hidden), the main
    source, the build configuration and the macro configuration.  Files
    under other names are kept as they are, and so is the main file. *)
Theorem deserialize_undecodable (JSON_parse : string -> json + string)
  (atou : string -> string + exn) (st : StoreState) (s : string) :
  (exists e, atou (serialized_body s) = inr e) \/
  (exists text message,
     atou (serialized_body s) = inl text /\ JSON_parse text = inr message) ->
  exists e,
    deserialize JSON_parse atou st s =
      (setDefaultFile st, [ConsoleError e; Alert decode_failure_alert],
       Normal) /\
    get indexHtmlFile (files (setDefaultFile st)) =
      Some (newFile indexHtmlFile (indexHtml (template st)) true) /\
    get welcomeFile (files (setDefaultFile st)) =
      Some (newFile welcomeFile (welcome (template st)) false) /\
    get viteConfigFile (files (setDefaultFile st)) =
      Some (newFile viteConfigFile (viteConfig (template st)) false) /\
    get tsMacroConfigFile (files (setDefaultFile st)) =
      Some (newFile tsMacroConfigFile (tsMacroConfigCode st) false) /\
    (forall g,
       g <> indexHtmlFile -> g <> welcomeFile -> g <> viteConfigFile ->
       g <> tsMacroConfigFile ->
       get g (files (setDefaultFile st)) = get g (files st)) /\
    mainFile (setDefaultFile st) = mainFile st /\
    vueVersion (setDefaultFile st) = vueVersion st.
Proof.
  intros H.
  assert (D : exists e,
             deserialize JSON_parse atou st s =
               (setDefaultFile st, [ConsoleError e; Alert decode_failure_alert],
                Normal)).
  { unfold deserialize. fold (serialized_body s).
    destruct H as [[e E] | (text & message & E & P)]; rewrite E.
    - now exists e.
    - rewrite P. now exists (SyntaxError message). }
  destruct D as [e D]. exists e. split; [exact D|].
  repeat split; try (rewrite get_setDefaultFile; reflexivity).
  intros g N1 N2 N3 N4. rewrite get_setDefaultFile.
  apply String.eqb_neq in N1, N2, N3, N4. now rewrite N1, N2, N3, N4.
Qed.

Lemma deserialize_undecodable_witness :
  exists e,
    deserialize Example.JSON_parse Example.atou example_refs "#zz" =
      (setDefaultFile example_refs,
       [ConsoleError e; Alert decode_failure_alert], Normal) /\
    get indexHtmlFile (files (setDefaultFile example_refs)) =
      Some (newFile indexHtmlFile (indexHtml (template example_refs)) true) /\
    get welcomeFile (files (setDefaultFile example_refs)) =
      Some (newFile welcomeFile (welcome (template example_refs)) false) /\
    get viteConfigFile (files (setDefaultFile example_refs)) =
      Some (newFile viteConfigFile (viteConfig (template example_refs)) false) /\
    get tsMacroConfigFile (files (setDefaultFile example_refs)) =
      Some (newFile tsMacroConfigFile (tsMacroConfigCode example_refs) false) /\
    (forall g,
       g <> indexHtmlFile -> g <> welcomeFile -> g <> viteConfigFile ->
       g <> tsMacroConfigFile ->
       get g (files (setDefaultFile example_refs)) =
         get g (files example_refs)) /\
    mainFile (setDefaultFile example_refs) = mainFile example_refs /\
    vueVersion (setDefaultFile example_refs) = vueVersion example_refs.
Proof.
  apply (@deserialize_undecodable Example.JSON_parse Example.atou
           example_refs "#zz").
  left. eexists. vm_compute. reflexivity.
Defined.

Lemma restore_fields (saved : list (string * json)) (st : StoreState) :
  let st' := fst (restore saved st) in
  mainFile st' = mainFile st /\ activeFilename st' = activeFilename st /\
  activeConfigFilename st' = activeConfigFilename st /\
  errors st' = errors st /\ importMap st' = importMap st /\
  builtinImportMap st' = builtinImportMap st.
Proof.
  revert st. induction saved as [|[filename value] rest IH]; intros st;
    cbv zeta; simpl; [repeat split|].
  destruct (filename =? "_version").
  - destruct value; simpl; try (repeat split; reflexivity);
      match goal with
      | |- context [restore rest ?s] => destruct (IH s) as (A & B & C & D & E & F)
      end; simpl in *; repeat split; congruence.
  - destruct (Js.field value "code") as [c| |];
      destruct (Js.field value "hidden") as [h| |]; simpl;
      try (repeat split; reflexivity).
    destruct c as [[]|]; simpl; try (repeat split; reflexivity);
      destruct h as [[]|]; simpl; try (repeat split; reflexivity);
      match goal with
      | |- context [restore rest ?s] => destruct (IH s) as (A & B & C & D & E & F)
      end; simpl in *; repeat split; congruence.
Qed.

(** X10: [deserialize] only adds: whatever the serialized state, and
    whether it returns or throws, no file of the store is removed, and the
    main file, the active file names, the error list and the import maps
    are left alone; it changes files and the version selection only. *)
Theorem deserialize_only_adds (JSON_parse : string -> json + string)
  (atou : string -> string + exn) (st : StoreState) (s : string) :
  let st' := fst (fst (deserialize JSON_parse atou st s)) in
  (forall k, has k (files st) = true -> has k (files st') = true) /\
  mainFile st' = mainFile st /\
  activeFilename st' = activeFilename st /\
  activeConfigFilename st' = activeConfigFilename st /\
  errors st' = errors st /\
  importMap st' = importMap st /\
  builtinImportMap st' = builtinImportMap st.
Proof.
  cbv zeta. split; [apply extends_deserialize|].
  unfold deserialize. destruct (atou _) as [text|err]; simpl.
  - destruct (JSON_parse text) as [saved|message]; simpl.
    + pose proof (restore_fields (Js.own_entries saved) st) as E.
      destruct (restore (Js.own_entries saved) st). exact E.
    + repeat split.
  - repeat split.
Qed.

(** X11: for a well-named store without a file whose stripped name is
    [__proto__], whose import-map file is absent or holds JSON that can be
    pruned, [serialize] returns [#] followed by the
    encoding of the JSON text of one object: an entry [{code, hidden}] per
    file under its stripped name, in the order of the files, the import-map
    entry replaced by [{code}] with the pretty-printed pruned map or left
    out when pruning leaves nothing, and last the entry [_version] when a
    version is selected. *)
Theorem serialize_returns (JSON_parse : string -> json + string)
  (JSON_stringify : nat -> json -> string) (utoa : string -> string)
  (st : StoreState) (importMap : option string) :
  well_named (files st) ->
  ~ In "__proto__" (List.map stripSrcPrefix (keys (files st))) ->
  exported_import_map JSON_parse JSON_stringify st = Ok importMap ->
  serialize JSON_parse JSON_stringify utoa st =
    Ok ("#" ++ utoa (JSON_stringify 0 (JObj (payload_of importMap st)))) /\
  (forall k f,
     In (k, f) (files st) -> k <> importMapFile ->
     get (stripSrcPrefix k) (payload_of importMap st) =
       Some (JObj [("code", JStr (code f)); ("hidden", JBool (hidden f))])) /\
  get importMapFile (payload_of importMap st) =
    match importMap with
    | Some content =>
        if has importMapFile (files st)
        then Some (JObj [("code", JStr content)]) else None
    | None => None
    end /\
  get "_version" (payload_of importMap st) =
    match selected_version st with
    | Some v => Some (JStr v)
    | None => None
    end.
Proof.
  intros WN NP X.
  split; [unfold serialize;
          now rewrite (serialize_payload_eq JSON_parse JSON_stringify st WN
                         NP X)|].
  destruct WN as (W & N & K & V).
  set (E := List.map
              (fun kv : string * File =>
                 (stripSrcPrefix (fst kv),
                  {| Exported.code := code (snd kv);
                     Exported.hidden := Some (hidden (snd kv)) |}))
              (files st)).
  assert (WE : wf E = true).
  { unfold wf, E. rewrite keys_map_entries. unfold keys in K.
    now rewrite map_map in K. }
  assert (GA : forall x, get x (payload_of importMap st) =
                match get x (exported_files importMap (files st)) with
                | Some e => Some (Exported.to_json e)
                | None => if x =? "_version"
                          then match selected_version st with
                               | Some v => Some (JStr v)
                               | None => None
                               end
                          else None
                end).
  { intros x. unfold payload_of, version_entry.
    induction (exported_files importMap (files st)) as [|[k e] l IH]; simpl.
    - destruct (selected_version st); simpl;
        [destruct (x =? "_version")|destruct (x =? "_version")]; reflexivity.
    - destruct (x =? k); [reflexivity | exact IH]. }
  assert (NV : get "_version" (exported_files importMap (files st)) = None).
  { apply ObjFacts.get_None_keys. intros I. apply V.
    now apply (keys_exported_files importMap). }
  assert (GI : get importMapFile E =
               match get importMapFile (files st) with
               | Some f => Some {| Exported.code := code f;
                                   Exported.hidden := Some (hidden f) |}
               | None => None
               end).
  { apply (get_map_renamed stripSrcPrefix
             (fun kv : string * File =>
                {| Exported.code := code (snd kv);
                   Exported.hidden := Some (hidden (snd kv)) |})).
    now apply strip_keys_importMapFile. }
  split; [|split].
  - intros k f I Nk. rewrite GA.
    assert (Ns : stripSrcPrefix k <> importMapFile).
    { intros Es. apply Nk. apply String.eqb_eq.
      rewrite <- strip_importMapFile; [now apply String.eqb_eq|].
      apply N. now apply In_keys with (v := f). }
    assert (GE : get (stripSrcPrefix k) E =
                 Some {| Exported.code := code f;
                         Exported.hidden := Some (hidden f) |}).
    { apply wf_In_get; [exact WE|]. apply in_map_iff. now exists (k, f). }
    apply String.eqb_neq in Ns. unfold exported_files. fold E.
    destruct importMap;
      [rewrite ObjFacts.get_replace_val | rewrite ObjFacts.get_delete];
      rewrite Ns, GE; reflexivity.
  - rewrite GA. unfold exported_files. fold E. unfold has.
    destruct importMap as [content|].
    + rewrite ObjFacts.get_replace_val, String.eqb_refl. unfold has.
      rewrite GI. destruct (get importMapFile (files st)); reflexivity.
    + rewrite ObjFacts.get_delete, String.eqb_refl. reflexivity.
  - rewrite GA, NV. reflexivity.
Qed.

Lemma serialize_returns_witness :
  serialize Example.JSON_parse Example.JSON_stringify Example.utoa
    store_with_version =
    Ok ("#" ++ Example.utoa
                 (Example.JSON_stringify 0
                    (JObj (payload_of (Some example_exported_import_map)
                             store_with_version)))) /\
  (forall k f,
     In (k, f) (files store_with_version) -> k <> importMapFile ->
     get (stripSrcPrefix k)
       (payload_of (Some example_exported_import_map) store_with_version) =
       Some (JObj [("code", JStr (code f)); ("hidden", JBool (hidden f))])) /\
  get importMapFile
    (payload_of (Some example_exported_import_map) store_with_version) =
    (if has importMapFile (files store_with_version)
     then Some (JObj [("code", JStr example_exported_import_map)]) else None) /\
  get "_version"
    (payload_of (Some example_exported_import_map) store_with_version) =
    match selected_version store_with_version with
    | Some v => Some (JStr v)
    | None => None
    end.
Proof.
  apply (@serialize_returns Example.JSON_parse Example.JSON_stringify
           Example.utoa store_with_version
           (Some example_exported_import_map)).
  - exact well_named_example.
  - intros I. vm_compute in I.
    repeat (destruct I as [E | I]; [discriminate|]). destruct I.
  - vm_compute. reflexivity.
Defined.

(** X12: [serialize] throws where the import-map file cannot be used: for
    a well-named store with an import-map file it throws the [SyntaxError]
    of [JSON.parse] when the content does not parse, and a [TypeError] when
    the content is the JSON text [null]. *)
Theorem serialize_throws_cases (JSON_parse : string -> json + string)
  (JSON_stringify : nat -> json -> string) (utoa : string -> string)
  (st : StoreState) (f : File) :
  well_named (files st) ->
  get importMapFile (files st) = Some f ->
  (forall message,
     JSON_parse (code f) = inr message ->
     serialize JSON_parse JSON_stringify utoa st =
       Throw (SyntaxError message)) /\
  (forall builtin,
     JSON_parse (code f) = inl JNull ->
     builtin_imports (builtinImportMap st) = Ok builtin ->
     serialize JSON_parse JSON_stringify utoa st = Throw TypeError).
Proof.
  intros WN G. split.
  - intros message P. now apply serialize_throws with (f := f).
  - intros builtin P B.
    unfold serialize, serialize_payload. cbv zeta.
    rewrite (get_importMap_getFiles st WN), G. simpl. rewrite P, B.
    reflexivity.
Qed.

Lemma serialize_throws_cases_witness :
  (forall message,
     Example.JSON_parse (code (newFile importMapFile "null" false)) =
       inr message ->
     serialize Example.JSON_parse Example.JSON_stringify Example.utoa
       (store_with_import_map "null") = Throw (SyntaxError message)) /\
  (forall builtin,
     Example.JSON_parse (code (newFile importMapFile "null" false)) =
       inl JNull ->
     builtin_imports (builtinImportMap (store_with_import_map "null")) =
       Ok builtin ->
     serialize Example.JSON_parse Example.JSON_stringify Example.utoa
       (store_with_import_map "null") = Throw TypeError).
Proof.
  apply (@serialize_throws_cases Example.JSON_parse Example.JSON_stringify
           Example.utoa (store_with_import_map "null")
           (newFile importMapFile "null" false)).
  - split; [reflexivity|]. split; [|split; [reflexivity|]].
    + intros k I. vm_compute in I.
      repeat (destruct I as [<- | I]; [reflexivity|]). destruct I.
    + intros I. vm_compute in I.
      repeat (destruct I as [E | I]; [discriminate|]). destruct I.
  - reflexivity.
Defined.

Lemma replace_val_same {V} (k : string) (v : V) (o : obj V) :
  get k o = Some v -> replace_val k v o = o.
Proof.
  induction o as [|[k' v'] o IH]; simpl; [reflexivity|].
  destruct (String.eqb_spec k k') as [->|N]; intros G.
  - now injection G as ->.
  - now rewrite IH.
Qed.

Lemma filter_twice {A} (p : A -> bool) (l : list A) :
  filter p (filter p l) = filter p l.
Proof.
  induction l as [|a l IH]; simpl; [reflexivity|].
  destruct (p a) eqn:E; simpl; [rewrite E, IH | rewrite IH]; reflexivity.
Qed.

(** Pruning an array a second time: the holes of the first pass are [null]
    now, and no other element goes. *)
Lemma prune_array_twice (builtin : obj json) (ks : list string)
  (l : list json) :
  List.length ks = List.length l ->
  let pass (l0 : list json) :=
    List.map (fun '(key, value) =>
                if same_as_builtin builtin key value then None else Some value)
      (combine ks l0) in
  let unhole (kept : list (option json)) :=
    List.map (fun x => match x with Some v => v | None => JNull end) kept in
  let left (kept : list (option json)) :=
    List.length (filter (fun x => match x with Some _ => true
                                           | None => false end) kept) in
  unhole (pass (unhole (pass l))) = unhole (pass l) /\
  (left (pass l) <= left (pass (unhole (pass l))))%nat /\
  List.length (unhole (pass l)) = List.length l.
Proof.
  cbv zeta. revert ks. induction l as [|v l IH]; intros [|k ks] L;
    try discriminate; simpl; [repeat split; lia|].
  injection L as L. destruct (IH ks L) as (A & B & C).
  destruct (same_as_builtin builtin k v) eqn:S; simpl.
  - destruct (same_as_builtin builtin k JNull); simpl;
      rewrite A, C; repeat split; lia.
  - rewrite S. simpl. rewrite A, C. repeat split; lia.
Qed.

Lemma length_indexed_keys {A} (l : list A) :
  List.length (List.map Js.index_key (seq 0 (List.length l))) = List.length l.
Proof. now rewrite length_map, length_seq. Qed.

Lemma prune_imports_twice (builtin : obj json) (i v : json) :
  Js.truthy i = true -> prune_imports builtin i = Ok (Some v) ->
  Js.truthy v = true /\ prune_imports builtin v = Ok (Some v).
Proof.
  intros T P. destruct i as [| | | s | l | o]; simpl in P; try discriminate.
  - destruct (existsb _ _) eqn:E; [discriminate|].
    injection P as <-. split; [exact T|]. simpl. now rewrite E.
  - pose proof (prune_array_twice builtin _ l (length_indexed_keys l)) as H.
    cbv zeta in H. destruct H as (A & B & C). unfold Js.indexed in P.
    match type of P with
    | Ok (if (?n =? 0)%nat then _ else _) = _ => destruct n eqn:Hn
    end; simpl in P; [discriminate|].
    injection P as <-. split; [reflexivity|].
    simpl. unfold Js.indexed. rewrite C.
    match goal with
    | |- Ok (if (?n =? 0)%nat then _ else _) = _ => destruct n eqn:Hm
    end.
    + rewrite ?Hm, ?Hn in B. lia.
    + simpl. now rewrite A.
  - match type of P with
    | Ok (if (?n =? 0)%nat then _ else _) = _ => destruct n eqn:Hn
    end; simpl in P; [discriminate|].
    injection P as <-. split; [reflexivity|].
    simpl. rewrite filter_twice, Hn. reflexivity.
Qed.

(** X13: pruning is idempotent: the import map [serialize] exports, pruned
    again, is itself.  ([prune] is the part of [serialize] between parsing
    the import-map file and printing it.) *)
Theorem prune_idempotent (builtin : obj json) (parsed pruned : json) :
  prune builtin parsed = Ok pruned -> prune builtin pruned = Ok pruned.
Proof.
  intros P.
  destruct parsed as [| | | | |p]; try discriminate;
    try (injection P as <-; reflexivity).
  pose (scoped := fun p1 : list (string * json) =>
          if Js.truthy_opt (get "scopes" p1) &&
             match get "scopes" p1 with
             | Some s => (Js.keys_length s =? 0)%nat
             | None => false
             end
          then delete "scopes" p1 else p1).
  assert (Sc : forall p1, scoped (scoped p1) = scoped p1).
  { intros p1.
    destruct (Js.truthy_opt (get "scopes" p1) &&
              match get "scopes" p1 with
              | Some s => (Js.keys_length s =? 0)%nat
              | None => false
              end) eqn:C.
    - assert (E : scoped p1 = delete "scopes" p1)
        by (unfold scoped; now rewrite C).
      rewrite E. unfold scoped.
      rewrite ObjFacts.get_delete, String.eqb_refl. reflexivity.
    - assert (E : scoped p1 = p1) by (unfold scoped; now rewrite C).
      now rewrite !E. }
  assert (Gi : forall p1, get "imports" (scoped p1) = get "imports" p1).
  { intros p1. unfold scoped. destruct (_ && _); [|reflexivity].
    now rewrite ObjFacts.get_delete. }
  assert (Fin : forall p1,
             (Js.truthy_opt (get "imports" p1) = true ->
              exists v, get "imports" p1 = Some v /\
                        prune_imports builtin v = Ok (Some v)) ->
             prune builtin (JObj (scoped p1)) = Ok (JObj (scoped p1))).
  { intros p1 H. unfold prune. cbn [Js.field bind_result]. rewrite Gi.
    destruct (Js.truthy_opt (get "imports" p1)) eqn:T.
    - destruct (H eq_refl) as (v & G & Pv). rewrite G, Pv.
      cbn [bind_result].
      rewrite replace_val_same by now rewrite Gi.
      change (Ok (JObj (scoped (scoped p1))) = Ok (JObj (scoped p1))).
      now rewrite Sc.
    - cbn [bind_result].
      change (Ok (JObj (scoped (scoped p1))) = Ok (JObj (scoped p1))).
      now rewrite Sc. }
  unfold prune in P. cbn [Js.field bind_result] in P.
  destruct (Js.truthy_opt (get "imports" p)) eqn:T.
  - destruct (get "imports" p) as [i|] eqn:G; [|discriminate].
    destruct (prune_imports builtin i) as [[v|]| |] eqn:Pi;
      cbn [bind_result] in P; try discriminate; injection P as <-.
    + change (prune builtin (JObj (scoped (replace_val "imports" v p))) =
              Ok (JObj (scoped (replace_val "imports" v p)))).
      apply Fin. intros _. exists v. split.
      * rewrite ObjFacts.get_replace_val. unfold has. now rewrite G.
      * exact (proj2 (@prune_imports_twice builtin i v T Pi)).
    + change (prune builtin (JObj (scoped (delete "imports" p))) =
              Ok (JObj (scoped (delete "imports" p)))).
      apply Fin. rewrite ObjFacts.get_delete. discriminate.
  - cbn [bind_result] in P. injection P as <-.
    change (prune builtin (JObj (scoped p)) = Ok (JObj (scoped p))).
    apply Fin. rewrite T. discriminate.
Qed.

Lemma prune_idempotent_witness :
  prune [("vue", JStr "https://A")]
    (JObj [("imports", JObj [("foo", JStr "https://B")])]) =
  Ok (JObj [("imports", JObj [("foo", JStr "https://B")])]).
Proof.
  apply (@prune_idempotent [("vue", JStr "https://A")]
           (JObj [("imports", JObj [("vue", JStr "https://A");
                                    ("foo", JStr "https://B")]);
                  ("scopes", JObj [])])).
  reflexivity.
Defined.

(* ------------------------------------------------------------------ *)
(** ** The import map and its file *)

Lemma setImportMap_file (JSON_stringify : nat -> json -> string)
  st map map' st' :
  setImportMap JSON_stringify st map = (map', st', Normal) ->
  fst (fix_imports map) = map' /\
  (exists f, get importMapFile (files st') = Some f /\
             code f = JSON_stringify 2 map') /\
  (forall k, k <> importMapFile -> get k (files st') = get k (files st)) /\
  activeFilename st' = activeFilename st /\ mainFile st' = mainFile st /\
  importMap st' = importMap st.
Proof.
  unfold setImportMap. destruct (fix_imports map) as [m c].
  destruct c; try discriminate. intros H. injection H as <- <-.
  split; [reflexivity|]. split; [|split; [|now simpl]].
  - destruct (get importMapFile (files st)) as [f|] eqn:G; simpl.
    + exists (with_code f (JSON_stringify 2 m)). split; [|reflexivity].
      rewrite ObjFacts.get_replace_val, String.eqb_refl.
      unfold has. now rewrite G.
    + exists (newFile importMapFile (JSON_stringify 2 m) false).
      split; [|reflexivity].
      now rewrite ObjFacts.get_set, String.eqb_refl.
  - intros k N. apply String.eqb_neq in N.
    destruct (get importMapFile (files st)) as [f|] eqn:G; simpl.
    + now rewrite ObjFacts.get_replace_val, N.
    + now rewrite ObjFacts.get_set, N.
Qed.

(** X14: what [setImportMap] writes, [getImportMap] reads back.  When
    [setImportMap(map)] completes and [JSON.parse] inverts [JSON.stringify]
    on the map the loop left, the next [getImportMap()] returns that map and
    reports no error: the store is unchanged by the read. *)
Theorem setImportMap_then_getImportMap
  (JSON_parse : string -> json + string)
  (JSON_stringify : nat -> json -> string) (st st' : StoreState)
  (map map' : json) :
  setImportMap JSON_stringify st map = (map', st', Normal) ->
  JSON_stringify 2 map' <> "" ->
  JSON_parse (JSON_stringify 2 map') = inl map' ->
  getImportMap JSON_parse st' = (map', st').
Proof.
  intros S N P. apply setImportMap_file in S as (_ & (f & G & C) & _).
  unfold getImportMap. rewrite G, C.
  apply String.eqb_neq in N. rewrite N. now rewrite P.
Qed.

Lemma setImportMap_then_getImportMap_witness :
  getImportMap Example.JSON_parse (snd example_mapped) = example_mapped.
Proof.
  apply (@setImportMap_then_getImportMap Example.JSON_parse
           Example.JSON_stringify example_refs (snd example_mapped)
           example_import_map (fst example_mapped)).
  - vm_compute. reflexivity.
  - vm_compute. discriminate.
  - vm_compute. reflexivity.
Defined.

Lemma applyBuiltinImportMap_result (JSON_parse : string -> json + string)
  (JSON_stringify : nat -> json -> string)
  (mergeImportMap : json -> json -> result json) st st' :
  applyBuiltinImportMap JSON_parse JSON_stringify mergeImportMap st =
    (st', Normal) ->
  synced JSON_stringify st' /\
  (forall k, k <> importMapFile -> get k (files st') = get k (files st)) /\
  activeFilename st' = activeFilename st /\ mainFile st' = mainFile st /\
  exists merged,
    mergeImportMap (builtinImportMap st) (fst (getImportMap JSON_parse st)) =
      Ok merged /\
    importMap st' = fst (fix_imports merged).
Proof.
  unfold applyBuiltinImportMap.
  assert (F : files (snd (getImportMap JSON_parse st)) = files st /\
              activeFilename (snd (getImportMap JSON_parse st)) =
                activeFilename st /\
              mainFile (snd (getImportMap JSON_parse st)) = mainFile st /\
              builtinImportMap (snd (getImportMap JSON_parse st)) =
                builtinImportMap st).
  { unfold getImportMap. destruct (JSON_parse _); simpl; auto. }
  destruct (getImportMap JSON_parse st) as [user st1]. simpl in F.
  destruct F as (F1 & F2 & F3 & F4). rewrite F4.
  destruct (mergeImportMap (builtinImportMap st) user) as [merged| |] eqn:M;
    try discriminate.
  destruct (setImportMap JSON_stringify (with_importMap st1 merged) merged)
    as [[map' st2] c] eqn:S.
  intros H. injection H as <- ->.
  apply setImportMap_file in S as (E & (f & G & C) & K & A & Mn & _).
  simpl in *. split; [|split; [|split; [|split]]].
  - exists f. split; [exact G | exact C].
  - intros k N. rewrite (K k N). now rewrite F1.
  - congruence.
  - congruence.
  - exists merged. split; [exact M | now rewrite E].
Qed.

(** X15: [applyBuiltinImportMap] leaves the import-map file and the
    [importMap] of the store in step.  When the call completes, the file
    [import-map.json] exists and holds the two-space print of [importMap],
    which is the merge of the built-in map with the map read from the file,
    with its [imports] passed through [fixURL]; no other file, the active
    file name and the main file name are touched. *)
Theorem applyBuiltinImportMap_syncs (JSON_parse : string -> json + string)
  (JSON_stringify : nat -> json -> string)
  (mergeImportMap : json -> json -> result json) (st st' : StoreState) :
  applyBuiltinImportMap JSON_parse JSON_stringify mergeImportMap st =
    (st', Normal) ->
  synced JSON_stringify st' /\
  (forall k, k <> importMapFile -> get k (files st') = get k (files st)) /\
  activeFilename st' = activeFilename st /\ mainFile st' = mainFile st /\
  exists merged,
    mergeImportMap (builtinImportMap st) (fst (getImportMap JSON_parse st)) =
      Ok merged /\
    importMap st' = fst (fix_imports merged).
Proof. apply applyBuiltinImportMap_result. Qed.

Lemma applyBuiltinImportMap_syncs_witness :
  synced Example.JSON_stringify example_applied /\
  (forall k, k <> importMapFile ->
             get k (files example_applied) = get k (files example_refs)) /\
  activeFilename example_applied = activeFilename example_refs /\
  mainFile example_applied = mainFile example_refs /\
  exists merged,
    Example.mergeImportMap (builtinImportMap example_refs)
      (fst (getImportMap Example.JSON_parse example_refs)) = Ok merged /\
    importMap example_applied = fst (fix_imports merged).
Proof.
  apply (@applyBuiltinImportMap_syncs Example.JSON_parse
           Example.JSON_stringify Example.mergeImportMap example_refs
           example_applied).
  vm_compute. reflexivity.
Defined.




(* ------------------------------------------------------------------ *)
(** ** Replacing the whole file set *)

Lemma has_cons {V} k k' (v : V) o :
  has k ((k', v) :: o) = (k =? k') || has k o.
Proof. unfold has. simpl. now destruct (k =? k'). Qed.

Lemma has_fold_setFile_inv (l : list (string * string)) fs k :
  has k (fold_left (fun fs '(filename, file) => setFile fs filename file false)
           l fs) = true ->
  has k fs = true \/ exists n, has n l = true /\ k = addSrcPrefix n.
Proof.
  revert fs. induction l as [|[n c] l IH]; intros fs H; simpl in H;
    [now left|].
  destruct (IH _ H) as [H1 | (n' & H1 & E)].
  - rewrite has_setFile in H1. apply orb_true_iff in H1 as [H1 | H1].
    + right. exists n. split.
      * now rewrite has_cons, String.eqb_refl.
      * now apply String.eqb_eq.
    + now left.
  - right. exists n'. split; [|exact E].
    rewrite has_cons, H1. apply orb_true_r.
Qed.

Lemma has_applyBuiltinImportMap_inv (JSON_parse : string -> json + string)
  (JSON_stringify : nat -> json -> string)
  (mergeImportMap : json -> json -> result json) st k :
  has k (files (fst (applyBuiltinImportMap JSON_parse JSON_stringify
                       mergeImportMap st))) = true ->
  has k (files st) = true \/ k = importMapFile.
Proof.
  unfold applyBuiltinImportMap, getImportMap.
  destruct (JSON_parse _) as [user|message];
    (destruct (mergeImportMap _ _) as [merged| |]; simpl; auto);
    unfold setImportMap;
    (destruct (fix_imports merged) as [map' []]; simpl; auto);
    (destruct (get importMapFile (files st));
     [rewrite has_replace_val; auto |
      rewrite has_set; intros H; apply orb_true_iff in H as [H | H];
      [right; now apply String.eqb_eq | now left]]).
Qed.

(** X17: [setFiles] replaces the whole file set.  Whatever the store held
    before, the main file becomes the normalized name passed (the present
    main file by default); every file passed is in the store under its
    normalized name; and the store holds nothing but these files, the main
    file and [import-map.json]. *)
Theorem setFiles_replaces (JSON_parse : string -> json + string)
  (JSON_stringify : nat -> json -> string)
  (mergeImportMap : json -> json -> result json)
  (compileFile : StoreState -> File -> Compiled * list string)
  (st : StoreState) (newFiles : obj string) (m : option string) :
  let st' :=
    fst (setFiles JSON_parse JSON_stringify mergeImportMap compileFile st
           newFiles m) in
  mainFile st' =
    addSrcPrefix (match m with Some x => x | None => mainFile st end) /\
  (forall n, has n newFiles = true ->
             has (addSrcPrefix n) (files st') = true) /\
  (forall k, has k (files st') = true ->
             k = mainFile st' \/ k = importMapFile \/
             exists n, has n newFiles = true /\ k = addSrcPrefix n).
Proof.
  unfold setFiles.
  set (main := addSrcPrefix match m with Some x => x | None => mainFile st end).
  set (fs0 := match get main newFiles with
              | Some content =>
                  if content =? ""
                  then setFile [] main (welcome (template st)) false else []
              | None => setFile [] main (welcome (template st)) false
              end).
  set (fs1 := fold_left
                (fun fs '(filename, file) => setFile fs filename file false)
                (entries newFiles) fs0).
  assert (H0 : forall k, has k fs0 = true -> k = main).
  { assert (P : addSrcPrefix main = main) by apply addSrcPrefix_twice.
    assert (Q : forall k c h, has k (setFile [] main c h) = true -> k = main).
    { intros k c h. rewrite has_setFile, P. intros H.
      apply orb_true_iff in H as [H | H]; [now apply String.eqb_eq|].
      discriminate. }
    subst fs0. intros k.
    destruct (get main newFiles) as [content|];
      [destruct (content =? "")|]; try apply Q. discriminate. }
  assert (H1 : forall n, has n newFiles = true ->
                         has (addSrcPrefix n) fs1 = true).
  { intros n H. unfold has in H.
    destruct (get n newFiles) as [c|] eqn:G; [|discriminate].
    subst fs1. apply has_fold_setFile_key with (c := c). now apply get_In. }
  assert (H1' : forall k, has k fs1 = true ->
                          k = main \/
                          exists n, has n newFiles = true /\
                                    k = addSrcPrefix n).
  { intros k H. subst fs1. apply has_fold_setFile_inv in H as [H | H]; auto. }
  assert (H2 : forall k, has k (fst (compile_all compileFile st fs1)) =
                         has k fs1) by (intros; apply has_compile_all).
  destruct (compile_all compileFile st fs1) as [fs errs]. simpl in H2.
  set (st1 := with_errors
                (with_filesProto (with_files (with_mainFile st main) fs)
                   NoPrototype) errs).
  assert (E : extends st1
                (fst (applyBuiltinImportMap JSON_parse JSON_stringify
                        mergeImportMap st1)))
    by apply extends_applyBuiltinImportMap.
  assert (I : forall k,
             has k (files (fst (applyBuiltinImportMap JSON_parse
                                  JSON_stringify mergeImportMap st1))) = true ->
             has k (files st1) = true \/ k = importMapFile)
    by (intros k; apply has_applyBuiltinImportMap_inv).
  destruct (applyBuiltinImportMap _ _ _ st1) as [st2 c]. simpl in E, I.
  destruct E as [M K]. simpl in M, K.
  assert (R : mainFile st2 = main /\
              (forall n, has n newFiles = true ->
                         has (addSrcPrefix n) (files st2) = true) /\
              (forall k, has k (files st2) = true ->
                         k = mainFile st2 \/ k = importMapFile \/
                         exists n, has n newFiles = true /\
                                   k = addSrcPrefix n)).
  { split; [exact M|]. split.
    - intros n H. apply K. rewrite H2. now apply H1.
    - intros k H. apply I in H as [H | H]; [|now auto].
      simpl in H. rewrite H2 in H. apply H1' in H as [H | H].
      + left. congruence.
      + right. now right. }
  destruct c; simpl; try exact R.
  unfold setActive. destruct (reserved (mainFile st2)); exact R.
Qed.

(* ------------------------------------------------------------------ *)
(** ** Initialization *)



(* ------------------------------------------------------------------ *)
(** ** What is exported *)





(** X20: the file names that survive an export.  Normalizing the exported
    name of a file gives back the name of the file exactly when that name is
    one of the four reserved names or a bare name under [src/]: a file
    stored under any other name comes back from an export under another
    name. *)
Theorem exported_name_round_trip (k : string) :
  addSrcPrefix (stripSrcPrefix k) = k <->
  reserved k = true \/ exists f, bare f = true /\ k = "src/" ++ f.
Proof.
  split.
  - intros E. destruct (Str.startsWith k "src/") eqn:P.
    + apply StrFacts.prefix_split in P. simpl String.length in P.
      set (r := Str.drop 4 k) in *. rewrite P in E.
      rewrite stripSrcPrefix_src in E.
      destruct (bare_cases r) as [[B _] | [_ A]].
      * right. exists r. auto.
      * rewrite A in E. symmetry in E.
        now apply StrFacts.app_neq_self in E.
    + rewrite (stripSrcPrefix_other _ P) in E.
      destruct (bare_cases k) as [[_ A] | [B _]].
      * rewrite A in E. now apply StrFacts.app_neq_self in E.
      * left. unfold bare in B. rewrite P in B. simpl in B.
        rewrite andb_true_r in B. now apply negb_false_iff in B.
  - intros [R | (f & B & ->)].
    + rewrite (stripSrcPrefix_other _ (reserved_not_prefixed _ R)).
      destruct (addSrcPrefix_cases k) as [[_ E] | (R' & _)]; congruence.
    + rewrite stripSrcPrefix_src.
      destruct (bare_cases f) as [[_ E] | [B' _]]; congruence.
Qed.
